(** * Auto-add-to-cart rule engine: rule matching and gift reconciliation

    A shallow embedding of the two places where the repository evaluates
    auto-add rules:

    - [Transform]: [extensions/auto-add-2-cart/src/cart_transform_run.ts],
      the cart-transform function ([ruleApplies], [cartTransformRun]);
    - [Storefront]: [extensions/theme-auto-add/assets/auto-add.js], the
      storefront script ([evaluateRule], [processCart]).

    JavaScript numbers that hold quantities and ids are integers ([Z], [N]);
    money amounts are exact rationals ([Q]).  JavaScript strings are
    [string]. *)

From Stdlib Require Import ZArith QArith List String Ascii Bool Lia.
From Stdlib Require Import DecimalString DecimalPos DecimalN.
Import ListNotations.

Local Open Scope string_scope.
Local Open Scope list_scope.
Local Open Scope Z_scope.

(** ** JavaScript primitives used by the two files *)

Module JS.

(** Truthiness of a string: every string but the empty one. *)
Definition truthy (s : string) : bool := negb (s =? "")%string.

Fixpoint drop (n : nat) (s : string) : string :=
  match n, s with
  | O, _ => s
  | S _, EmptyString => EmptyString
  | S n', String _ s' => drop n' s'
  end.

(** [s.replace(pat, '')] with a string pattern: the first occurrence of
    [pat] in [s], scanning from the left, is removed. *)
Fixpoint replace_with_empty (pat s : string) : string :=
  if String.prefix pat s then drop (String.length pat) s
  else match s with
       | EmptyString => EmptyString
       | String c s' => String c (replace_with_empty pat s')
       end.

(** [String(n)] and [prefix + n] for a non-negative integer [n]. *)
Definition String_of (n : N) : string :=
  NilEmpty.string_of_uint (N.to_uint n).

Definition is_digit (c : ascii) : bool :=
  let k := nat_of_ascii c in (48 <=? k)%nat && (k <=? 57)%nat.

Definition digit_value (c : ascii) : N := N.of_nat (nat_of_ascii c - 48).

(** The digits read so far ([acc] is [None] until one was read), then the
    rest of the string is ignored, as [parseInt] does. *)
Fixpoint parse_digits (acc : option N) (s : string) : option N :=
  match s with
  | String c s' =>
      if is_digit c
      then parse_digits
             (Some (match acc with
                    | Some a => 10 * a + digit_value c
                    | None => digit_value c
                    end)%N) s'
      else acc
  | EmptyString => acc
  end.

(** [parseInt(s)] on the strings [addToCart] passes: a run of decimal
    digits, [None] for [NaN].  Signs, leading blanks and radix prefixes
    are outside the ids handled here and give [None] or the leading
    digits. *)
Definition parseInt (s : string) : option N := parse_digits None s.

(** The number a decimal numeral ends at, from the number [acc] read so
    far. *)
Fixpoint numeral_value (d : Decimal.uint) (acc : N) : N :=
  match d with
  | Decimal.Nil => acc
  | Decimal.D0 d => numeral_value d (10 * acc)
  | Decimal.D1 d => numeral_value d (10 * acc + 1)
  | Decimal.D2 d => numeral_value d (10 * acc + 2)
  | Decimal.D3 d => numeral_value d (10 * acc + 3)
  | Decimal.D4 d => numeral_value d (10 * acc + 4)
  | Decimal.D5 d => numeral_value d (10 * acc + 5)
  | Decimal.D6 d => numeral_value d (10 * acc + 6)
  | Decimal.D7 d => numeral_value d (10 * acc + 7)
  | Decimal.D8 d => numeral_value d (10 * acc + 8)
  | Decimal.D9 d => numeral_value d (10 * acc + 9)
  end%N.

Definition is_space (c : ascii) : bool :=
  let k := nat_of_ascii c in
  (k =? 32)%nat || ((9 <=? k)%nat && (k <=? 13)%nat).

Fixpoint trim_start (s : string) : string :=
  match s with
  | String c s' => if is_space c then trim_start s' else s
  | EmptyString => EmptyString
  end.

(** Removes the blanks that end [s]. *)
Fixpoint trim_end (s : string) : string :=
  match s with
  | String c s' =>
      match trim_end s' with
      | EmptyString => if is_space c then EmptyString else String c EmptyString
      | t => String c t
      end
  | EmptyString => EmptyString
  end.

(** [s.trim()], on ASCII blanks. *)
Definition trim (s : string) : string := trim_end (trim_start s).

(** [x < y] on numbers that carry money. *)
Definition Qlt_bool (x y : Q) : bool := negb (Qle_bool y x).

(** A [Map] with string keys.  Iteration follows insertion order: [set]
    on a present key keeps its place, on a new key appends. *)
Section Map.
Context {V : Type}.

Definition Map := list (string * V).

Fixpoint has (k : string) (m : Map) : bool :=
  match m with
  | [] => false
  | (k', _) :: m' => if (k' =? k)%string then true else has k m'
  end.

Fixpoint get (k : string) (m : Map) : option V :=
  match m with
  | [] => None
  | (k', v) :: m' => if (k' =? k)%string then Some v else get k m'
  end.

Fixpoint set (k : string) (v : V) (m : Map) : Map :=
  match m with
  | [] => [(k, v)]
  | (k', v') :: m' =>
      if (k' =? k)%string then (k', v) :: m' else (k', v') :: set k v m'
  end.

Fixpoint delete (k : string) (m : Map) : Map :=
  match m with
  | [] => []
  | (k', v') :: m' =>
      if (k' =? k)%string then delete k m' else (k', v') :: delete k m'
  end.

Definition keys (m : Map) : list string := map fst m.
End Map.
Arguments Map : clear implicits.

(** A [Set] of strings; only membership is observed. *)
Definition StringSet := list string.

Definition set_has (x : string) (s : StringSet) : bool :=
  existsb (String.eqb x) s.

Definition set_add (x : string) (s : StringSet) : StringSet :=
  if set_has x s then s else s ++ [x].

End JS.

(** ** The rule model (the JSON document both files read) *)

Module Rule.

(** [RuleCondition], a union tagged by its [type] field.  [cart_total_gte]
    is the tag the storefront script reads; [unknown_condition] stands for
    an object whose [type] is none of the tags above. *)
Inductive RuleCondition : Type :=
| cart_quantity_at_least (threshold : Z)
| cart_total_at_least (amount : Q) (currencyCode : option string)
| includes_any_variants (variantIds : list string)
| cart_quantity_in_range (min : Z) (max : option Z)
| includes_any_products (productIds : list string)
| includes_any_collections (collectionIds : list string)
| product_quantity_in_range (productId : string) (min : Z) (max : option Z)
| cart_total_gte (value : Q)
| unknown_condition (type : string).

(** The [type] field of a condition. *)
Definition type_of (c : RuleCondition) : string :=
  match c with
  | cart_quantity_at_least _ => "cart_quantity_at_least"
  | cart_total_at_least _ _ => "cart_total_at_least"
  | includes_any_variants _ => "includes_any_variants"
  | cart_quantity_in_range _ _ => "cart_quantity_in_range"
  | includes_any_products _ => "includes_any_products"
  | includes_any_collections _ => "includes_any_collections"
  | product_quantity_in_range _ _ _ => "product_quantity_in_range"
  | cart_total_gte _ => "cart_total_gte"
  | unknown_condition t => t
  end.

Record RuleAction : Type := {
  addVariantId : string;
  quantity : option Z;          (* default 1 *)
  titleOverride : option string
}.

Record AutoAddRule : Type := {
  id : string;
  active : bool;
  group : option string;
  conditions : list RuleCondition;
  action : RuleAction
}.

End Rule.
Import Rule.

(** ** The cart-transform function, [cart_transform_run.ts] *)

Module Transform.

Definition CurrencyCode := string.

(** [line.merchandise]: a [ProductVariant] with its [id] and its
    [product?.id], or another kind of merchandise. *)
Inductive Merchandise : Type :=
| ProductVariant (id : string) (product_id : option string)
| CustomProduct.

(** [line.cost.totalAmount]; [amount] is what [parseFloat] reads from the
    decimal string, [None] when it reads [NaN]. *)
Record MoneyV2 : Type := {
  amount : option Q;
  currencyCode : CurrencyCode
}.

Record CartLine : Type := {
  id : string;
  quantity : Z;
  merchandise : Merchandise;
  totalAmount : MoneyV2
}.

(** [CartTransformRunInput].  The two metafield values are taken as the
    JSON values [JSON.parse] returns for them: [rules] is the parsed array
    ([None] when the value is absent, is not JSON or is not an array) with
    its falsy members as [None]; [collectionIndex] is the parsed object
    ([None] when absent or not an object), each product id with the string
    members of its list. *)
Record CartTransformRunInput : Type := {
  lines : list CartLine;
  rules : option (list (option AutoAddRule));
  collectionIndex : option (list (string * list string))
}.

Section Result.
(** [Operation] comes from the generated API types. *)
Variable Operation : Type.

Record CartTransformRunResult : Type := {
  operations : list Operation
}.

Definition NO_CHANGES : CartTransformRunResult := {| operations := [] |}.

(** [cartTransformRun]: the transform is switched off and passes the
    cart through. *)
Definition cartTransformRun (input : CartTransformRunInput)
  : CartTransformRunResult := NO_CHANGES.
End Result.
Arguments operations {Operation} _.
Arguments NO_CHANGES {Operation}.
Arguments cartTransformRun {Operation} input.

Definition parseRules (input : CartTransformRunInput) : list AutoAddRule :=
  match rules input with
  | None => []
  | Some parsed =>
      flat_map (fun r => match r with Some r => [r] | None => [] end) parsed
  end.

(** The map from product id to its set of collection ids. *)
Definition parseCollectionIndex (input : CartTransformRunInput)
  : JS.Map (list string) :=
  match collectionIndex input with
  | None => []
  | Some parsed =>
      fold_left
        (fun map entry =>
           let '(productId, list) := entry in
           match list with
           | [] => map
           | _ :: _ => JS.set productId list map
           end)
        parsed []
  end.

Definition cartQuantity (input : CartTransformRunInput) : Z :=
  fold_left (fun sum l => sum + quantity l) (lines input) 0.

(** The sum of the line totals and the currency of the first line. *)
Definition cartTotalAmount (input : CartTransformRunInput)
  : Q * option CurrencyCode :=
  fold_left
    (fun acc line =>
       let '(amount_, currency) := acc in
       let a := amount (totalAmount line) in
       (Qplus amount_ (match a with Some a => a | None => 0%Q end),
        match currency with
        | Some c => Some c
        | None => Some (currencyCode (totalAmount line))
        end))
    (lines input) (0%Q, None).

Definition mem (x : string) (set : list string) : bool :=
  existsb (String.eqb x) set.

Definition includesAnyVariant (input : CartTransformRunInput)
  (variantIds : list string) : bool :=
  existsb
    (fun line =>
       match merchandise line with
       | ProductVariant id _ => JS.truthy id && mem id variantIds
       | CustomProduct => false
       end)
    (lines input).

Definition variantInCart (input : CartTransformRunInput)
  (variantId : string) : bool :=
  existsb
    (fun line =>
       match merchandise line with
       | ProductVariant id _ => (id =? variantId)%string
       | CustomProduct => false
       end)
    (lines input).

(** [merch.product?.id] of a [ProductVariant] line. *)
Definition productIdOf (line : CartLine) : option string :=
  match merchandise line with
  | ProductVariant _ pid => pid
  | CustomProduct => None
  end.

(** The quantity [ruleApplies] adds up for [product_quantity_in_range]:
    every line whose trimmed product id is the trimmed target. *)
Definition productQuantity (input : CartTransformRunInput)
  (productId : string) : Z :=
  let targetPid := JS.trim productId in
  fold_left
    (fun total line =>
       match productIdOf line with
       | Some pid =>
           if (JS.trim pid =? targetPid)%string
           then total + quantity line else total
       | None => total
       end)
    (lines input) 0.

(** One turn of the loop of [ruleApplies]: [true] where the [case] ends
    in [break], [false] where it returns [false]. *)
Definition conditionHolds (cond : RuleCondition)
  (input : CartTransformRunInput) : bool :=
  match cond with
  | cart_quantity_at_least threshold =>
      let q := cartQuantity input in
      if q <? threshold then false else true
  | cart_total_at_least amount_ currencyCode_ =>
      let '(amount, currency) := cartTotalAmount input in
      if JS.Qlt_bool amount amount_ then false
      else
        match currencyCode_, currency with
        | Some cc, Some cur =>
            if JS.truthy cc && JS.truthy cur && negb (cc =? cur)%string
            then false else true
        | _, _ => true
        end
  | includes_any_variants variantIds =>
      if negb (includesAnyVariant input variantIds) then false else true
  | includes_any_products productIds =>
      let found :=
        existsb
          (fun line =>
             match productIdOf line with
             | Some pid => JS.truthy pid && mem pid productIds
             | None => false
             end)
          (lines input) in
      if negb found then false else true
  | includes_any_collections collectionIds =>
      let idx := parseCollectionIndex input in
      let found :=
        existsb
          (fun line =>
             match productIdOf line with
             | Some pid =>
                 if negb (JS.truthy pid) then false
                 else
                   match JS.get pid idx with
                   | None => false
                   | Some colls =>
                       existsb (fun c => mem c collectionIds) colls
                   end
             | None => false
             end)
          (lines input) in
      if negb found then false else true
  | cart_quantity_in_range min max =>
      let q := cartQuantity input in
      if q <? min then false
      else
        match max with
        | Some max => if q >? max then false else true
        | None => true
        end
  | product_quantity_in_range productId min max =>
      let total := productQuantity input productId in
      if total <? min then false
      else
        match max with
        | Some max => if total >? max then false else true
        | None => true
        end
  | cart_total_gte _ => false
  | unknown_condition _ => false
  end.

(** [ruleApplies]: an inactive rule does not apply; the loop returns
    [false] at the first condition that fails and [true] when it runs
    out of conditions. *)
Definition ruleApplies (rule : AutoAddRule) (input : CartTransformRunInput)
  : bool :=
  if negb (active rule) then false
  else forallb (fun cond => conditionHolds cond input) (conditions rule).

(** The condition tags [ruleApplies] has a [case] for. *)
Definition known_types : list string :=
  [ "cart_quantity_at_least"; "cart_total_at_least";
    "includes_any_variants"; "includes_any_products";
    "includes_any_collections"; "cart_quantity_in_range";
    "product_quantity_in_range" ].

Definition isProductVariant (line : CartLine) : bool :=
  match merchandise line with
  | ProductVariant _ _ => true
  | CustomProduct => false
  end.

(** [pickAnchorLineId]: the id of the first [ProductVariant] line, or
    failing that of the first line, or [null]. *)
Definition pickAnchorLineId (input : CartTransformRunInput)
  : option string :=
  match find isProductVariant (lines input) with
  | Some line => Some (id line)
  | None =>
      match lines input with
      | line :: _ => Some (id line)
      | [] => None
      end
  end.

End Transform.

(** ** The storefront script, [auto-add.js] *)

Module Storefront.

Definition AUTO_ADD_PROPERTY : string := "_auto_added".

(** The two literals the script strips from, or puts before, an id. *)
Definition VARIANT_GID : string := "gid://shopify/ProductVariant/".
Definition PRODUCT_GID : string := "gid://shopify/Product/".

(** An item of [/cart.js].  [properties] is [null] or an object; [price]
    is the unit price in cents, which the script itself never reads. *)
Record CartItem : Type := {
  key : string;
  variant_id : N;
  product_id : N;
  quantity : Z;
  properties : option (JS.Map string);
  price : Z
}.

Record Cart : Type := {
  token : string;
  items : list CartItem;
  total_price : Z
}.

(** [item.properties && item.properties[AUTO_ADD_PROPERTY] === 'true'] *)
Definition isAutoAdded (item : CartItem) : bool :=
  match properties item with
  | Some props =>
      match JS.get AUTO_ADD_PROPERTY props with
      | Some v => (v =? "true")%string
      | None => false
      end
  | None => false
  end.

(** The cart API calls the script makes, in the order it makes them:
    [removeFromCart(lineKey)], [updateCartItemQuantity(lineKey, quantity)]
    and [addToCart(variantId, quantity)]. *)
Inductive Intent : Type :=
| Remove (lineKey : string)
| SetQuantity (lineKey : string) (quantity : Z)
| Add (variantId : string) (quantity : Z).

(** The quantity [evaluateRule] adds up for [product_quantity_in_range]:
    items marked as auto-added are skipped. *)
Definition productQuantity (targetProductId : string) (cart : Cart) : Z :=
  fold_left
    (fun totalQty item =>
       if isAutoAdded item then totalQty
       else if (JS.String_of (product_id item) =? targetProductId)%string
            then totalQty + quantity item
            else totalQty)
    (items cart) 0.

(** One turn of the loop of [evaluateRule]: [true] where the [case] ends
    in [break], [false] where it returns [false]. *)
Definition conditionPasses (cond : RuleCondition) (cart : Cart) : bool :=
  match cond with
  | product_quantity_in_range productId min max =>
      let targetProductId := JS.replace_with_empty PRODUCT_GID productId in
      let totalQty := productQuantity targetProductId cart in
      if totalQty <? min then false
      else
        match max with
        | Some max => if totalQty >? max then false else true
        | None => true
        end
  | cart_total_gte value =>
      let cartTotal := (total_price cart # 100)%Q in
      if JS.Qlt_bool cartTotal value then false else true
  | _ => false
  end.

Definition evaluateRule (rule : AutoAddRule) (cart : Cart) : bool :=
  match conditions rule with
  | [] => false
  | conds => forallb (fun cond => conditionPasses cond cart) conds
  end.

(** The condition tags [evaluateRule] has a [case] for. *)
Definition known_types : list string :=
  [ "product_quantity_in_range"; "cart_total_gte" ].

(** [g] is the group of [rule], for a rule whose [group] is truthy. *)
Definition grouped (rule : AutoAddRule) (g : string) : Prop :=
  group rule = Some g /\ JS.truthy g = true.

(** One turn of the loop over [rules] in [processCart]; the state is
    [shouldHaveVariants] and [seenGroups]. *)
Definition matchStep (cart : Cart)
  (state : JS.Map AutoAddRule * JS.StringSet) (rule : AutoAddRule)
  : JS.Map AutoAddRule * JS.StringSet :=
  let '(shouldHaveVariants, seenGroups) := state in
  if evaluateRule rule cart then
    let recorded :=
      JS.set (addVariantId (action rule)) rule shouldHaveVariants in
    match group rule with
    | Some g =>
        if JS.truthy g then
          if JS.set_has g seenGroups then state
          else (recorded, JS.set_add g seenGroups)
        else (recorded, seenGroups)
    | None => (recorded, seenGroups)
    end
  else state.

(** [shouldHaveVariants] once the loop over [rules] is over. *)
Definition shouldHave (rules : list AutoAddRule) (cart : Cart)
  : JS.Map AutoAddRule :=
  fst (fold_left (matchStep cart) rules ([], [])).

Definition variantGidOf (item : CartItem) : string :=
  (VARIANT_GID ++ JS.String_of (variant_id item))%string.

(** The loop over [autoAddedItems]: what it sends and what it leaves in
    [shouldHaveVariants]. *)
Fixpoint checkAutoAdded (autoAddedItems : list CartItem)
  (shouldHaveVariants : JS.Map AutoAddRule)
  : list Intent * JS.Map AutoAddRule :=
  match autoAddedItems with
  | [] => ([], shouldHaveVariants)
  | item :: rest =>
      let variantGid := variantGidOf item in
      if negb (JS.has variantGid shouldHaveVariants) then
        let '(sent, remaining) := checkAutoAdded rest shouldHaveVariants in
        (Remove (key item) :: sent, remaining)
      else
        let fixed :=
          if negb (quantity item =? 1)
          then [SetQuantity (key item) 1] else [] in
        let '(sent, remaining) :=
          checkAutoAdded rest (JS.delete variantGid shouldHaveVariants) in
        (fixed ++ sent, remaining)
  end.

(** One turn of the loop over what is left of [shouldHaveVariants]. *)
Definition addMissing (cart : Cart) (entry : string * AutoAddRule)
  : list Intent :=
  let '(variantGid, rule) := entry in
  let numericId := JS.replace_with_empty VARIANT_GID variantGid in
  let existingItem :=
    find (fun item => (JS.String_of (variant_id item) =? numericId)%string)
      (items cart) in
  match existingItem with
  | None => [Add variantGid 1]
  | Some existingItem =>
      if negb (isAutoAdded existingItem) then []
      else if negb (quantity existingItem =? 1)
           then [SetQuantity (key existingItem) 1]
           else []
  end.

(** What [processCart] decides for [cart] once it has it: the calls it
    sends, in order. *)
Definition evaluate_cycle (rules : list AutoAddRule) (cart : Cart)
  : list Intent :=
  let autoAddedItems := filter isAutoAdded (items cart) in
  let shouldHaveVariants := shouldHave rules cart in
  let '(sent, remaining) := checkAutoAdded autoAddedItems shouldHaveVariants in
  sent ++ flat_map (addMissing cart) remaining.

(** The variables of the script that outlive a call. *)
Record State : Type := {
  rules : list AutoAddRule;
  processing : bool;
  lastCartToken : option string
}.

(** [processCart], with the answer of [getCart()] as an argument; the
    state is the one the call leaves behind. *)
Definition processCart (st : State) (fetched : option Cart)
  : State * list Intent :=
  if processing st then (st, [])
  else
    match fetched with
    | None =>
        ({| rules := rules st; processing := false;
            lastCartToken := lastCartToken st |}, [])
    | Some cart =>
        let unchanged :=
          match lastCartToken st with
          | Some t => (token cart =? t)%string
          | None => false
          end in
        if unchanged then
          ({| rules := rules st; processing := false;
              lastCartToken := lastCartToken st |}, [])
        else
          let sent := evaluate_cycle (rules st) cart in
          let madeChanges := match sent with [] => false | _ => true end in
          ({| rules := rules st; processing := false;
              lastCartToken :=
                if madeChanges then None else Some (token cart) |}, sent)
    end.




End Storefront.

(** ** The cart the API calls leave behind *)

Module CartAPI.
Import Storefront.

(** What the shop sells under a variant id. *)
Record Variant : Type := {
  product : N;
  unit_price : Z
}.

Definition linesTotal (l : list CartItem) : Z :=
  fold_right (fun item sum => price item * quantity item + sum) 0 l.

(** The cart with its items replaced; the total moves by as much as the
    line totals do. *)
Definition withItems (cart : Cart) (l : list CartItem) : Cart :=
  {| token := token cart;
     items := l;
     total_price := total_price cart - linesTotal (items cart) + linesTotal l |}.

Definition setQuantity (q : Z) (item : CartItem) : CartItem :=
  {| key := key item; variant_id := variant_id item;
     product_id := product_id item; quantity := q;
     properties := properties item; price := price item |}.

(** The line [addToCart] asks for: the variant, the quantity and the
    auto-added property. *)
Definition newLine (catalog : N -> Variant) (variant : N) (q : Z)
  : CartItem :=
  {| key := (JS.String_of variant ++ ":" ++ AUTO_ADD_PROPERTY)%string;
     variant_id := variant;
     product_id := product (catalog variant);
     quantity := q;
     properties := Some [(AUTO_ADD_PROPERTY, "true")];
     price := unit_price (catalog variant) |}.

Definition withoutLine (lineKey : string) (l : list CartItem)
  : list CartItem :=
  filter (fun item => negb (key item =? lineKey)%string) l.

(** Modelled from the spec: the effect of one mutation intent on the
    lines of the cart (the cart API itself is the shop platform's, not
    the repository's).  [Remove] takes the line with that key away,
    [SetQuantity] gives it the quantity (none left at zero), [Add]
    appends an engine-managed line for the variant id [addToCart] sends,
    which is [parseInt(variantId.replace('gid://shopify/ProductVariant/',
    ''))]; nothing is added when that is [NaN]. *)
Definition applyToItems (catalog : N -> Variant) (l : list CartItem)
  (i : Intent) : list CartItem :=
  match i with
  | Remove lineKey => withoutLine lineKey l
  | SetQuantity lineKey q =>
      if q <=? 0 then withoutLine lineKey l
      else
        map (fun item =>
               if (key item =? lineKey)%string
               then setQuantity q item else item) l
  | Add variantId q =>
      match JS.parseInt (JS.replace_with_empty VARIANT_GID variantId) with
      | Some variant => l ++ [newLine catalog variant q]
      | None => l
      end
  end.

Definition applyIntent (catalog : N -> Variant) (cart : Cart) (i : Intent)
  : Cart :=
  withItems cart (applyToItems catalog (items cart) i).

(** The intents applied in full, in the order given. *)
Definition applyIntents (catalog : N -> Variant) (sent : list Intent)
  (cart : Cart) : Cart :=
  fold_left (applyIntent catalog) sent cart.

(** The lines that are not marked as auto-added. *)
Definition manualLines (l : list CartItem) : list CartItem :=
  filter (fun item => negb (isAutoAdded item)) l.

(** What the loop over the auto-added items of [cart] leaves in
    [shouldHaveVariants]. *)
Definition remaining (rs : list AutoAddRule) (cart : Cart)
  : JS.Map AutoAddRule :=
  snd (checkAutoAdded (filter isAutoAdded (items cart))
         (shouldHave rs cart)).

(** The lines a cycle leaves of those it found, [shouldHaveVariants]
    being what the loop over the auto-added items starts from: the
    customer's lines as they are, and of the auto-added lines the first
    one of each variant that should be there, at quantity 1. *)
Fixpoint kept (shouldHaveVariants : JS.Map AutoAddRule)
  (l : list CartItem) : list CartItem :=
  match l with
  | [] => []
  | item :: rest =>
      if isAutoAdded item then
        if JS.has (variantGidOf item) shouldHaveVariants
        then setQuantity 1 item
               :: kept (JS.delete (variantGidOf item) shouldHaveVariants)
                    rest
        else kept shouldHaveVariants rest
      else item :: kept shouldHaveVariants rest
  end.

(** Whether a line of [l] holds the variant [variantGid] names, as the
    loop that adds the missing gifts looks for it. *)
Definition inCart (l : list CartItem) (variantGid : string) : bool :=
  existsb
    (fun item =>
       (JS.String_of (variant_id item)
        =? JS.replace_with_empty VARIANT_GID variantGid)%string) l.

(** The lines added for the variants of [gids] that [l] does not hold. *)
Definition added (catalog : N -> Variant) (l : list CartItem)
  (gids : list string) : list CartItem :=
  flat_map
    (fun variantGid =>
       if inCart l variantGid then []
       else
         match
           JS.parseInt (JS.replace_with_empty VARIANT_GID variantGid)
         with
         | Some variant => [newLine catalog variant 1]
         | None => []
         end)
    gids.

(** An intent is about one of the lines whose keys are [keys]. *)
Definition about (keys : list string) (i : Intent) : Prop :=
  match i with
  | Remove k | SetQuantity k _ => In k keys
  | Add _ _ => False
  end.

(** A variant id of the form the script builds for an item. *)
Definition canonical (g : string) : Prop :=
  exists n : N, g = (VARIANT_GID ++ JS.String_of n)%string.

(** Modelled from the spec: both call sites read one cart snapshot.  This
    is a storefront item as the cart transform receives it, its ids as
    the GIDs the script builds and its total in units of the currency;
    nothing on a line of the transform says who added it. *)
Definition asCartLine (item : CartItem) : Transform.CartLine :=
  {| Transform.id := ("gid://shopify/CartLine/" ++ key item)%string;
     Transform.quantity := quantity item;
     Transform.merchandise :=
       Transform.ProductVariant
         (VARIANT_GID ++ JS.String_of (variant_id item))%string
         (Some (PRODUCT_GID ++ JS.String_of (product_id item))%string);
     Transform.totalAmount :=
       {| Transform.amount := Some (price item * quantity item # 100)%Q;
          Transform.currencyCode := "USD" |} |}.

Definition asInput (cart : Cart) : Transform.CartTransformRunInput :=
  {| Transform.lines := map asCartLine (items cart);
     Transform.rules := None;
     Transform.collectionIndex := None |}.

End CartAPI.

(** ** The app proxy that serves the rules to the storefront,
    [api.rules/route.ts] *)

Module Proxy.

(** [rules.filter(r => r && r.active)] on the parsed rules document,
    whose falsy members are [None]. *)
Definition activeRules (rules : list (option AutoAddRule))
  : list AutoAddRule :=
  flat_map
    (fun r =>
       match r with
       | Some r => if active r then [r] else []
       | None => []
       end)
    rules.

End Proxy.

(** ** Validation of the rules in the admin block, [BlockExtension.jsx] *)

Module Admin.

(** [!s || !String(s).trim()] *)
Definition blank (s : string) : bool := negb (JS.truthy (JS.trim s)).

(** The errors [validateRule] pushes for the condition at index [i].
    The fields have the types of the rule model, so the [typeof] tests of
    the script are not repeated. *)
Definition conditionErrors (i : nat) (c : RuleCondition) : list string :=
  if negb (JS.truthy (type_of c)) then
    [("Condition #" ++ JS.String_of (N.of_nat (i + 1))
        ++ ": missing type")%string]
  else
    match c with
    | cart_quantity_at_least threshold =>
        if threshold <? 0
        then ["cart_quantity_at_least: threshold must be >= 0"] else []
    | cart_quantity_in_range min max =>
        (if min <? 0
         then ["cart_quantity_in_range: min must be >= 0"] else [])
          ++ match max with
             | Some max =>
                 if max <? min
                 then ["cart_quantity_in_range: max must be >= min"]
                 else []
             | None => []
             end
    | cart_total_at_least amount _ =>
        if JS.Qlt_bool amount 0
        then ["cart_total_at_least: amount must be >= 0"] else []
    | includes_any_variants variantIds =>
        match variantIds with
        | [] => ["includes_any_variants: add at least one variant"]
        | _ :: _ => []
        end
    | includes_any_products productIds =>
        match productIds with
        | [] => ["includes_any_products: add at least one product"]
        | _ :: _ => []
        end
    | includes_any_collections collectionIds =>
        match collectionIds with
        | [] => ["includes_any_collections: add at least one collection"]
        | _ :: _ => []
        end
    | product_quantity_in_range productId min max =>
        (if blank productId
         then ["product_quantity_in_range: productId required"] else [])
          ++ (if min <? 0
              then ["product_quantity_in_range: min must be >= 0"]
              else [])
          ++ match max with
             | Some max =>
                 if max <? min
                 then ["product_quantity_in_range: max must be >= min"]
                 else []
             | None => []
             end
    | cart_total_gte _ => []
    | unknown_condition _ => []
    end.

(** The loop of [validateRule] over the conditions, from index [i]. *)
Fixpoint conditionsErrors (i : nat) (conds : list RuleCondition)
  : list string :=
  match conds with
  | [] => []
  | c :: rest => conditionErrors i c ++ conditionsErrors (S i) rest
  end.

(** [validateRule]; [None] is a rule that is falsy or no object. *)
Definition validateRule (r : option AutoAddRule) : list string :=
  match r with
  | None => ["Invalid rule"]
  | Some r =>
      (if blank (Rule.id r) then ["Missing rule id"] else [])
        ++ (if blank (addVariantId (action r))
            then ["Missing action.addVariantId"] else [])
        ++ conditionsErrors 0 (conditions r)
  end.

(** An entry of [validateAll]; [id] is [r?.id ?? idx]. *)
Record Issue : Type := {
  idx : nat;
  id : string + nat;
  errors : list string
}.

(** The loop of [validateAll], from index [i]. *)
Fixpoint validateFrom (i : nat) (rulesArr : list (option AutoAddRule))
  : list Issue :=
  match rulesArr with
  | [] => []
  | r :: rest =>
      let errs := validateRule r in
      match errs with
      | [] => validateFrom (S i) rest
      | _ :: _ =>
          {| idx := i;
             id := match r with
                   | Some r => inl (Rule.id r)
                   | None => inr i
                   end;
             errors := errs |}
            :: validateFrom (S i) rest
      end
  end.

Definition validateAll (rulesArr : list (option AutoAddRule))
  : list Issue :=
  validateFrom 0 rulesArr.


End Admin.

(** ** The rules page of the app *)

Module RulesPage.

(** [isValid] of [RuleBuilder]:
    [rules.every(r => r.id.trim() && r.action.addVariantId.trim())] *)
Definition isValid (rules : list AutoAddRule) : bool :=
  forallb
    (fun r =>
       JS.truthy (JS.trim (Rule.id r))
       && JS.truthy (JS.trim (addVariantId (action r))))
    rules.

End RulesPage.

(** ** Rebuilding the collection index, [api.collection-index/route.ts] *)

Module CollectionIndex.

(** [new Set(array)]: the members in order, each once. *)
Definition setOf (array : list string) : JS.StringSet :=
  fold_left (fun set x => JS.set_add x set) array [].

(** The collection ids read off the [includes_any_collections]
    conditions of the rules, when the request names none. *)
Definition collectionIdsOfRules (rules : list AutoAddRule)
  : JS.StringSet :=
  fold_left
    (fun set r =>
       fold_left
         (fun set c =>
            match c with
            | includes_any_collections collectionIds =>
                fold_left (fun set cid => JS.set_add cid set)
                  collectionIds set
            | _ => set
            end)
         (conditions r) set)
    rules [].

(** [mapping]: for each product the collections it was found in.
    [productsOf cid] is the ids of the nodes the pages of the products
    of collection [cid] hold, in order. *)
Definition buildMapping (productsOf : string -> list string)
  (collectionIds : list string) : JS.Map JS.StringSet :=
  fold_left
    (fun mapping cid =>
       fold_left
         (fun mapping nid =>
            let set :=
              match JS.get nid mapping with
              | Some set => set
              | None => []
              end in
            JS.set nid (JS.set_add cid set) mapping)
         (productsOf cid) mapping)
    collectionIds [].

(** The merge of [mapping] into the index there was. *)
Definition mergeIndex (existing : JS.Map (list string))
  (mapping : JS.Map JS.StringSet) : JS.Map (list string) :=
  fold_left
    (fun existing entry =>
       let '(pid, set) := entry in
       let prev :=
         setOf (match JS.get pid existing with
                | Some l => l
                | None => []
                end) in
       JS.set pid (fold_left (fun prev c => JS.set_add c prev) set prev)
         existing)
    mapping existing.

(** The [action] of the route: [requested] is [body.collectionIds] when
    it is an array; the answer is the index it stores, or [None] where
    it answers 400 "No collections to index". *)
Definition rebuild (requested : option (list string))
  (rules : list AutoAddRule) (productsOf : string -> list string)
  (existing : JS.Map (list string)) : option (JS.Map (list string)) :=
  let collectionIds :=
    match requested with
    | Some ids => ids
    | None => collectionIdsOfRules rules
    end in
  match collectionIds with
  | [] => None
  | _ :: _ => Some (mergeIndex existing (buildMapping productsOf collectionIds))
  end.

(** [productsIndexed] of the answer. *)
Definition productsIndexed (index : JS.Map (list string)) : nat :=
  List.length (JS.keys index).

(** Product [pid] is listed under collection [c] in [index]. *)
Definition indexed (index : JS.Map (list string)) (pid c : string)
  : Prop :=
  exists l, JS.get pid index = Some l /\ In c l.

End CollectionIndex.

(** ** Sample rules and carts *)

Module Examples.

Definition gift (variant : string) (q : option Z) : RuleAction :=
  {| addVariantId := variant; Rule.quantity := q; titleOverride := None |}.

Definition rule (name : string) (grp : option string)
  (conds : list RuleCondition) (act : RuleAction) : AutoAddRule :=
  {| Rule.id := name; active := true; group := grp;
     conditions := conds; action := act |}.

Definition variantA : string := "gid://shopify/ProductVariant/11".
Definition variantB : string := "gid://shopify/ProductVariant/12".
Definition productP : string := "gid://shopify/Product/70".

(** *** Seen by the cart transform *)

Definition line (name : string) (q : Z) (variant product : string)
  : Transform.CartLine :=
  {| Transform.id := name;
     Transform.quantity := q;
     Transform.merchandise := Transform.ProductVariant variant (Some product);
     Transform.totalAmount :=
       {| Transform.amount := Some (10 * inject_Z q)%Q;
          Transform.currencyCode := "USD" |} |}.

Definition input (l : list Transform.CartLine)
  : Transform.CartTransformRunInput :=
  {| Transform.lines := l;
     Transform.rules := None;
     Transform.collectionIndex := None |}.

(** Two lines holding [q] units in all, for [q >= 1]. *)
Definition input_with_quantity (q : Z) : Transform.CartTransformRunInput :=
  input [ line "gid://shopify/CartLine/1" 1
            "gid://shopify/ProductVariant/1" productP;
          line "gid://shopify/CartLine/2" (q - 1)
            "gid://shopify/ProductVariant/2" "gid://shopify/Product/71" ].

Definition no_conditions : AutoAddRule := rule "r0" None [] (gift variantA None).

Definition five_to_nine : AutoAddRule :=
  rule "r59" None [cart_quantity_in_range 5 (Some 9)] (gift variantA None).

(** Five units in the cart and [five_to_nine] among the rules. *)
Definition input_with_rule : Transform.CartTransformRunInput :=
  {| Transform.lines := Transform.lines (input_with_quantity 5);
     Transform.rules := Some [None; Some five_to_nine];
     Transform.collectionIndex := None |}.

Definition with_unknown : AutoAddRule :=
  rule "ru" None
    [cart_quantity_at_least 0; unknown_condition "cart_weight_gte"]
    (gift variantA None).

(** *** Seen by the storefront script *)

Definition auto_added : option (JS.Map string) :=
  Some [(Storefront.AUTO_ADD_PROPERTY, "true")].

Definition item (k : string) (variant product : N) (q : Z)
  (props : option (JS.Map string)) (cents : Z) : Storefront.CartItem :=
  {| Storefront.key := k; Storefront.variant_id := variant;
     Storefront.product_id := product; Storefront.quantity := q;
     Storefront.properties := props; Storefront.price := cents |}.

Definition cart (l : list Storefront.CartItem) : Storefront.Cart :=
  {| Storefront.token := "c1"; Storefront.items := l;
     Storefront.total_price := CartAPI.linesTotal l |}.

(** One unit of product 70, bought by the customer for 50.00. *)
Definition bought : Storefront.CartItem := item "1:a" 1 70 1 None 5000.

Definition with_includes : AutoAddRule :=
  rule "ri" None
    [cart_total_gte 10; includes_any_products [productP]]
    (gift variantA None).

Definition on_product : AutoAddRule :=
  rule "rp" None [product_quantity_in_range productP 1 None]
    (gift variantA None).

Definition on_total : AutoAddRule :=
  rule "rt" None [cart_total_gte 10] (gift variantA None).

(** Every variant of the shop belongs to product 70 and costs 10.00. *)
Definition catalog (variant : N) : CartAPI.Variant :=
  {| CartAPI.product := 70; CartAPI.unit_price := 1000 |}.

(** The line the script adds for variant 11. *)
Definition added : Storefront.CartItem := CartAPI.newLine catalog 11 1.

Definition exactly_one : AutoAddRule :=
  rule "r1" None [product_quantity_in_range productP 1 (Some 1)]
    (gift variantA None).

(** A rule that asks for two units of its gift. *)
Definition two_gifts : AutoAddRule :=
  rule "r2" None [cart_total_gte 10] (gift variantA (Some 2)).

(** The gift of [two_gifts], auto-added, at the two units it asks for. *)
Definition added_twice : Storefront.CartItem := CartAPI.newLine catalog 11 2.

(** Three units of variant 11, put in the cart by the customer. *)
Definition own_choice : Storefront.CartItem := item "11:b" 11 70 3 None 1000.

(** An auto-added line no rule asks for. *)
Definition stale : Storefront.CartItem := item "13:c" 13 70 1 auto_added 0.

(** Two rules of the group "tier" and a rule outside it that gives the
    gift of the second; the cart of [bought] satisfies the three. *)
Definition tier_first : AutoAddRule :=
  rule "t1" (Some "tier") [cart_total_gte 10] (gift variantA None).

Definition tier_second : AutoAddRule :=
  rule "t2" (Some "tier") [cart_total_gte 20] (gift variantB None).

Definition ungrouped : AutoAddRule :=
  rule "u" None [cart_total_gte 30] (gift variantB None).

(** Two thresholds on the cart total, five units of currency apart. *)
Definition from_fifty : AutoAddRule :=
  rule "g50" None [cart_total_gte 50] (gift variantA None).

Definition from_fifty_five : AutoAddRule :=
  rule "g55" None [cart_total_gte 55] (gift variantB None).

(** A shop whose variants are given away. *)
Definition free_catalog (variant : N) : CartAPI.Variant :=
  {| CartAPI.product := 70; CartAPI.unit_price := 0 |}.

(** A rule whose target is the bare number of the variant. *)
Definition bare_target : AutoAddRule :=
  rule "b" None [cart_total_gte 10] (gift "11" None).

End Examples.

(** ** More sample data *)

Module Samples.

Definition custom_line (name : string) (q : Z) : Transform.CartLine :=
  {| Transform.id := name;
     Transform.quantity := q;
     Transform.merchandise := Transform.CustomProduct;
     Transform.totalAmount :=
       {| Transform.amount := None; Transform.currencyCode := "USD" |} |}.

Definition shirt : Transform.CartLine :=
  Examples.line "gid://shopify/CartLine/2" 2
    "gid://shopify/ProductVariant/21" "gid://shopify/Product/71".

Definition mug : Transform.CartLine :=
  Examples.line "gid://shopify/CartLine/3" 1
    "gid://shopify/ProductVariant/31" "gid://shopify/Product/72".

(** A custom line, then two variant lines. *)
Definition mixed_lines : list Transform.CartLine :=
  [custom_line "gid://shopify/CartLine/1" 1; shirt; mug].

Definition summer : string := "gid://shopify/Collection/5".
Definition winter : string := "gid://shopify/Collection/6".

(** The parsed collection index: one product without collections. *)
Definition parsed_index : list (string * list string) :=
  [ ("gid://shopify/Product/71", [summer; winter]);
    ("gid://shopify/Product/72", []) ].

Definition indexed_input : Transform.CartTransformRunInput :=
  {| Transform.lines := mixed_lines;
     Transform.rules := None;
     Transform.collectionIndex := Some parsed_index |}.

(** The same two conditions, in either order. *)
Definition quantity_then_product : AutoAddRule :=
  Examples.rule "qp" None
    [cart_quantity_at_least 2; includes_any_products [Examples.productP]]
    (Examples.gift Examples.variantA None).

Definition product_then_quantity : AutoAddRule :=
  Examples.rule "pq" None
    [includes_any_products [Examples.productP]; cart_quantity_at_least 2]
    (Examples.gift Examples.variantA None).

(** Two conditions the storefront script knows, in either order. *)
Definition total_then_product : AutoAddRule :=
  Examples.rule "tp" None
    [cart_total_gte 10;
     product_quantity_in_range Examples.productP 1 None]
    (Examples.gift Examples.variantA None).

Definition product_then_total : AutoAddRule :=
  Examples.rule "pt" None
    [product_quantity_in_range Examples.productP 1 None;
     cart_total_gte 10]
    (Examples.gift Examples.variantA None).

(** An auto-added line of variant 11, and a second one of the same
    variant under another key. *)
Definition gift_line : Storefront.CartItem :=
  Examples.item "11:g1" 11 70 1 Examples.auto_added 0.

Definition gift_again : Storefront.CartItem :=
  Examples.item "11:g2" 11 70 1 Examples.auto_added 0.

(** [on_total] switched off, under another name and with another
    quantity. *)
Definition on_total_off : AutoAddRule :=
  {| Rule.id := "off"; active := false; group := None;
     conditions := conditions Examples.on_total;
     action := Examples.gift Examples.variantA (Some 3) |}.


(** The rules document: a hole, a rule switched off, a rule switched
    on. *)
Definition rules_document : list (option AutoAddRule) :=
  [None; Some on_total_off; Some Examples.from_fifty].

(** The state of the script before its first poll. *)
Definition fresh (rs : list AutoAddRule) : Storefront.State :=
  {| Storefront.rules := rs; Storefront.processing := false;
     Storefront.lastCartToken := None |}.

(** The products of the two collections of the samples. *)
Definition productsOf (cid : string) : list string :=
  if (cid =? summer)%string
  then ["gid://shopify/Product/71"; "gid://shopify/Product/72"]
  else if (cid =? winter)%string then ["gid://shopify/Product/71"]
  else [].

Definition on_summer : AutoAddRule :=
  Examples.rule "rs" None [includes_any_collections [summer]]
    (Examples.gift Examples.variantA None).

End Samples.

(** * Properties *)

(** ** Strings and ids *)

Section StringFacts.

Lemma prefix_append (p s : string) : String.prefix p (p ++ s)%string = true.
Proof.
  induction p as [|c p IH]; simpl.
  - now destruct s.
  - destruct (ascii_dec c c) as [_|ne]; [exact IH | now elim ne].
Qed.

Lemma drop_append (p s : string) :
  JS.drop (String.length p) (p ++ s)%string = s.
Proof. induction p as [|c p IH]; simpl; [reflexivity | exact IH]. Qed.

Lemma replace_with_empty_eq (pat s : string) :
  JS.replace_with_empty pat s
  = if String.prefix pat s then JS.drop (String.length pat) s
    else match s with
         | EmptyString => EmptyString
         | String c s' => String c (JS.replace_with_empty pat s')
         end.
Proof. destruct s; reflexivity. Qed.

Lemma replace_prefixed (p s : string) :
  JS.replace_with_empty p (p ++ s)%string = s.
Proof.
  now rewrite replace_with_empty_eq, prefix_append, drop_append.
Qed.

Lemma append_cancel (p a b : string) :
  (p ++ a)%string = (p ++ b)%string -> a = b.
Proof.
  induction p as [|c p IH]; simpl; intros H; [exact H|].
  injection H as H. now apply IH.
Qed.

Lemma String_of_inj (a b : N) : JS.String_of a = JS.String_of b -> a = b.
Proof.
  unfold JS.String_of. intros H.
  apply DecimalN.Unsigned.to_uint_inj.
  assert (E : Some (N.to_uint a) = Some (N.to_uint b)).
  { rewrite <- (NilEmpty.usu (N.to_uint a)), <- (NilEmpty.usu (N.to_uint b)).
    now rewrite H. }
  now injection E.
Qed.

Lemma parse_digits_numeral (d : Decimal.uint) (acc : N) :
  JS.parse_digits (Some acc) (NilEmpty.string_of_uint d)
  = Some (JS.numeral_value d acc).
Proof.
  revert acc.
  induction d; intros acc;
    cbn [NilEmpty.string_of_uint JS.parse_digits JS.numeral_value];
    try reflexivity;
    match goal with
    | |- context [JS.is_digit ?c] =>
        change (JS.is_digit c) with true;
        let v := eval vm_compute in (JS.digit_value c) in
        change (JS.digit_value c) with v
    end;
    cbv iota; rewrite IHd; try reflexivity.
  now rewrite N.add_0_r.
Qed.

Lemma numeral_value_pos (d : Decimal.uint) (p : positive) :
  JS.numeral_value d (Npos p) = Npos (Pos.of_uint_acc d p).
Proof.
  revert p.
  induction d; intros p; cbn [JS.numeral_value Pos.of_uint_acc];
    try reflexivity; rewrite <- IHd; f_equal; lia.
Qed.

Lemma numeral_value_zero (d : Decimal.uint) :
  JS.numeral_value d 0 = N.of_uint d.
Proof.
  induction d; cbn [JS.numeral_value N.of_uint Pos.of_uint];
    try reflexivity; try exact IHd; apply numeral_value_pos.
Qed.

Lemma parseInt_String_of (n : N) : JS.parseInt (JS.String_of n) = Some n.
Proof.
  unfold JS.parseInt, JS.String_of.
  assert (H : forall d, d <> Decimal.Nil ->
              JS.parse_digits None (NilEmpty.string_of_uint d)
              = Some (JS.numeral_value d 0)).
  { intros d Hd. destruct d; try congruence;
      cbn [NilEmpty.string_of_uint JS.parse_digits JS.numeral_value];
      match goal with
      | |- context [JS.is_digit ?c] =>
          change (JS.is_digit c) with true;
          let v := eval vm_compute in (JS.digit_value c) in
          change (JS.digit_value c) with v
      end;
      cbv iota; rewrite parse_digits_numeral; reflexivity. }
  rewrite H.
  - now rewrite numeral_value_zero, DecimalN.Unsigned.of_to.
  - destruct n as [|p]; simpl; [discriminate|].
    apply DecimalPos.Unsigned.to_uint_nonnil.
Qed.

End StringFacts.

(** ** The cart transform passes the cart through *)

(** C4: whatever the cart, the rules metafield and the collection index
    of its input, [cartTransformRun] returns [NO_CHANGES], whose list of
    operations is empty; so it does on [input_with_rule], one of whose
    rules applies. *)
Theorem cartTransformRun_no_operations :
  forall (Operation : Type) (input : Transform.CartTransformRunInput),
    Transform.cartTransformRun (Operation := Operation) input
    = Transform.NO_CHANGES
    /\ Transform.operations
         (Transform.cartTransformRun (Operation := Operation) input) = []
    /\ Transform.parseRules Examples.input_with_rule
       = [Examples.five_to_nine]
    /\ Transform.ruleApplies Examples.five_to_nine Examples.input_with_rule
       = true
    /\ Transform.operations
         (Transform.cartTransformRun (Operation := Operation)
            Examples.input_with_rule) = [].
Proof. intros Operation input. repeat split. Qed.

(** ** Conditions of the cart transform *)

Lemma ruleApplies_single (rule : AutoAddRule) (cond : RuleCondition)
  (input : Transform.CartTransformRunInput) :
  active rule = true -> conditions rule = [cond] ->
  Transform.ruleApplies rule input = Transform.conditionHolds cond input.
Proof.
  intros Ha Hc. unfold Transform.ruleApplies. rewrite Ha, Hc. simpl.
  apply andb_true_r.
Qed.

Lemma cart_quantity_in_range_holds (min : Z) (max : option Z)
  (input : Transform.CartTransformRunInput) :
  Transform.conditionHolds (cart_quantity_in_range min max) input = true
  <-> min <= Transform.cartQuantity input
      /\ match max with
         | Some max => Transform.cartQuantity input <= max
         | None => True
         end.
Proof.
  simpl. destruct (Z.ltb_spec (Transform.cartQuantity input) min) as [Hlt|Hge].
  - split; [discriminate | lia].
  - destruct max as [max|].
    + rewrite Z.gtb_ltb.
      destruct (Z.ltb_spec max (Transform.cartQuantity input));
        split; try discriminate; try lia; auto.
    + split; auto.
Qed.

(** C10: a rule whose one condition is [cart_quantity_in_range] with min 5
    and max 9 applies exactly to the carts whose total quantity is between
    5 and 9, both included: it applies at 5 and at 9 and fails at 4 and at
    10.  Without [max] it applies to every total quantity that is at least
    [min]. *)
Theorem cart_quantity_in_range_inclusive :
  forall (input : Transform.CartTransformRunInput)
         (name : string) (grp : option string) (act : RuleAction),
    let rule c :=
      {| Rule.id := name; active := true; group := grp;
         conditions := [c]; action := act |} in
    (Transform.ruleApplies (rule (cart_quantity_in_range 5 (Some 9))) input
     = true <-> 5 <= Transform.cartQuantity input <= 9)
    /\ (forall min max,
           Transform.ruleApplies
             (rule (cart_quantity_in_range min (Some max))) input = true
           <-> min <= Transform.cartQuantity input <= max)
    /\ (forall min,
           Transform.ruleApplies (rule (cart_quantity_in_range min None)) input
           = true <-> min <= Transform.cartQuantity input)
    /\ Transform.ruleApplies Examples.five_to_nine
         (Examples.input_with_quantity 4) = false
    /\ Transform.ruleApplies Examples.five_to_nine
         (Examples.input_with_quantity 5) = true
    /\ Transform.ruleApplies Examples.five_to_nine
         (Examples.input_with_quantity 9) = true
    /\ Transform.ruleApplies Examples.five_to_nine
         (Examples.input_with_quantity 10) = false.
Proof.
  intros input name grp act rule.
  assert (G : forall min max,
             Transform.ruleApplies (rule (cart_quantity_in_range min max)) input
             = true
             <-> min <= Transform.cartQuantity input
                 /\ match max with
                    | Some max => Transform.cartQuantity input <= max
                    | None => True
                    end).
  { intros min max.
    rewrite (ruleApplies_single _ (cart_quantity_in_range min max))
      by reflexivity.
    apply cart_quantity_in_range_holds. }
  split; [|split; [|split]].
  - rewrite (G 5 (Some 9)). tauto.
  - intros min max. rewrite (G min (Some max)). tauto.
  - intros min. rewrite (G min None). tauto.
  - repeat split; reflexivity.
Qed.

(** A rule that holds a condition which fails does not apply. *)
Lemma ruleApplies_failing_condition (rule : AutoAddRule)
  (cond : RuleCondition) (input : Transform.CartTransformRunInput) :
  In cond (conditions rule) ->
  Transform.conditionHolds cond input = false ->
  Transform.ruleApplies rule input = false.
Proof.
  intros Hin Hc. unfold Transform.ruleApplies.
  destruct (active rule); simpl; [|reflexivity].
  destruct (forallb _ (conditions rule)) eqn:E; [|reflexivity].
  rewrite forallb_forall in E. rewrite (E cond Hin) in Hc. discriminate.
Qed.

Lemma conditionHolds_unknown_type (cond : RuleCondition)
  (input : Transform.CartTransformRunInput) :
  ~ In (type_of cond) Transform.known_types ->
  Transform.conditionHolds cond input = false.
Proof.
  intros Hn. destruct cond; try reflexivity;
    exfalso; apply Hn; simpl; tauto.
Qed.

(** ** Conditions of the storefront script *)

Lemma evaluateRule_failing_condition (rule : AutoAddRule)
  (cond : RuleCondition) (cart : Storefront.Cart) :
  In cond (conditions rule) ->
  Storefront.conditionPasses cond cart = false ->
  Storefront.evaluateRule rule cart = false.
Proof.
  intros Hin Hc. unfold Storefront.evaluateRule.
  destruct (conditions rule) as [|c cs] eqn:E; [reflexivity|].
  destruct (forallb _ (c :: cs)) eqn:F; [|reflexivity].
  rewrite forallb_forall in F. rewrite (F cond Hin) in Hc. discriminate.
Qed.

Lemma conditionPasses_unknown_type (cond : RuleCondition)
  (cart : Storefront.Cart) :
  ~ In (type_of cond) Storefront.known_types ->
  Storefront.conditionPasses cond cart = false.
Proof.
  intros Hn. destruct cond; try reflexivity;
    exfalso; apply Hn; simpl; tauto.
Qed.

(** C8: a rule that holds a condition whose type is none of those the
    evaluator knows does not match, in the cart transform ([ruleApplies])
    and in the storefront script ([evaluateRule]) alike; both evaluators
    are total functions, so the answer [false] is a value and no error is
    raised on the way. *)
Theorem unknown_condition_never_matches :
  forall (rule : AutoAddRule) (cond : RuleCondition),
    In cond (conditions rule) ->
    (~ In (type_of cond) Transform.known_types ->
     forall input, Transform.ruleApplies rule input = false)
    /\ (~ In (type_of cond) Storefront.known_types ->
        forall cart, Storefront.evaluateRule rule cart = false).
Proof.
  intros rule cond Hin. split; intros Hn x.
  - apply (ruleApplies_failing_condition rule cond); [exact Hin|].
    now apply conditionHolds_unknown_type.
  - apply (evaluateRule_failing_condition rule cond); [exact Hin|].
    now apply conditionPasses_unknown_type.
Qed.

Lemma unknown_condition_never_matches_witness :
  Transform.ruleApplies Examples.with_unknown (Examples.input_with_quantity 5)
  = false
  /\ Storefront.evaluateRule Examples.with_unknown
       (Examples.cart [Examples.bought]) = false.
Proof.
  assert (Hin : In (unknown_condition "cart_weight_gte")
                  (conditions Examples.with_unknown))
    by (simpl; tauto).
  destruct (unknown_condition_never_matches Examples.with_unknown
              (unknown_condition "cart_weight_gte") Hin) as [Ht Hs].
  split.
  - apply Ht. simpl. intuition discriminate.
  - apply Hs. simpl. intuition discriminate.
Defined.

(** C9: [evaluateRule] has a case for [product_quantity_in_range] and for
    [cart_total_gte] only, and rules made of these can match.  A rule that
    holds a condition of any other type, and so of any of
    [cart_quantity_at_least], [cart_quantity_in_range],
    [cart_total_at_least], [includes_any_variants], [includes_any_products]
    and [includes_any_collections], evaluates to [false] on every cart. *)
Theorem storefront_implements_two_kinds :
  forall (rule : AutoAddRule) (cond : RuleCondition) (cart : Storefront.Cart),
    In cond (conditions rule) ->
    (type_of cond <> "product_quantity_in_range" ->
     type_of cond <> "cart_total_gte" ->
     Storefront.evaluateRule rule cart = false)
    /\ (In (type_of cond)
          [ "cart_quantity_at_least"; "cart_quantity_in_range";
            "cart_total_at_least"; "includes_any_variants";
            "includes_any_products"; "includes_any_collections" ] ->
        Storefront.evaluateRule rule cart = false)
    /\ Storefront.evaluateRule Examples.on_product
         (Examples.cart [Examples.bought]) = true
    /\ Storefront.evaluateRule Examples.on_total
         (Examples.cart [Examples.bought]) = true.
Proof.
  intros rule cond cart Hin.
  assert (G : type_of cond <> "product_quantity_in_range" ->
              type_of cond <> "cart_total_gte" ->
              Storefront.evaluateRule rule cart = false).
  { intros H1 H2.
    apply (evaluateRule_failing_condition rule cond); [exact Hin|].
    destruct cond; try reflexivity; simpl in *; congruence. }
  split; [exact G|]. split; [|split; reflexivity].
  intros Hk. apply G; intros E; rewrite E in Hk; simpl in Hk;
    intuition discriminate.
Qed.

Lemma storefront_implements_two_kinds_witness :
  Storefront.evaluateRule Examples.with_includes
    (Examples.cart [Examples.bought]) = false.
Proof.
  apply (storefront_implements_two_kinds Examples.with_includes
           (includes_any_products [Examples.productP])
           (Examples.cart [Examples.bought])).
  - simpl; tauto.
  - simpl; tauto.
Defined.

(** ** Rules without conditions *)

Lemma matchStep_no_match (rule : AutoAddRule) (cart : Storefront.Cart)
  (state : JS.Map AutoAddRule * JS.StringSet) :
  Storefront.evaluateRule rule cart = false ->
  Storefront.matchStep cart state rule = state.
Proof.
  intros H. unfold Storefront.matchStep. destruct state as [m s].
  now rewrite H.
Qed.

Lemma shouldHave_skips_non_matching (before after : list AutoAddRule)
  (rule : AutoAddRule) (cart : Storefront.Cart) :
  Storefront.evaluateRule rule cart = false ->
  Storefront.shouldHave (before ++ rule :: after) cart
  = Storefront.shouldHave (before ++ after) cart.
Proof.
  intros H. unfold Storefront.shouldHave.
  rewrite !fold_left_app. simpl. now rewrite matchStep_no_match.
Qed.

(** C5, as stated, fails in the cart transform: [ruleApplies] lets an
    active rule without conditions apply. *)
Lemma empty_conditions_apply_in_transform :
  active Examples.no_conditions = true
  /\ conditions Examples.no_conditions = []
  /\ Transform.ruleApplies Examples.no_conditions (Examples.input []) = true.
Proof. repeat split. Qed.

(** C5, amended: in the storefront script a rule without conditions never
    matches, on any cart, and the should-have mapping is the one the other
    rules give without it; in the cart transform [ruleApplies] answers
    for such a rule whether it is active, so an active one applies to
    every cart. *)
Theorem empty_conditions_by_call_site :
  forall rule : AutoAddRule,
    conditions rule = [] ->
    (forall cart, Storefront.evaluateRule rule cart = false)
    /\ (forall before after cart,
           Storefront.shouldHave (before ++ rule :: after) cart
           = Storefront.shouldHave (before ++ after) cart)
    /\ (forall input, Transform.ruleApplies rule input = active rule).
Proof.
  intros rule Hc.
  assert (E : forall cart, Storefront.evaluateRule rule cart = false).
  { intros cart. unfold Storefront.evaluateRule. now rewrite Hc. }
  split; [exact E|]. split.
  - intros before after cart. apply shouldHave_skips_non_matching, E.
  - intros input. unfold Transform.ruleApplies. rewrite Hc.
    now destruct (active rule).
Qed.

Lemma empty_conditions_by_call_site_witness :
  (forall cart, Storefront.evaluateRule Examples.no_conditions cart = false)
  /\ (forall before after cart,
         Storefront.shouldHave (before ++ Examples.no_conditions :: after) cart
         = Storefront.shouldHave (before ++ after) cart)
  /\ (forall input,
         Transform.ruleApplies Examples.no_conditions input = true).
Proof.
  exact (empty_conditions_by_call_site Examples.no_conditions eq_refl).
Defined.

(** ** What [product_quantity_in_range] counts *)

Lemma storefront_productQuantity_from (target : string)
  (l : list Storefront.CartItem) (a : Z) (tok : string) (total : Z) :
  fold_left
    (fun totalQty item =>
       if Storefront.isAutoAdded item then totalQty
       else if (JS.String_of (Storefront.product_id item) =? target)%string
            then totalQty + Storefront.quantity item
            else totalQty) l a
  = a + Storefront.productQuantity target
          {| Storefront.token := tok; Storefront.items := l;
             Storefront.total_price := total |}.
Proof.
  unfold Storefront.productQuantity. simpl.
  revert a. induction l as [|x l IH]; intros a; simpl; [lia|].
  destruct (Storefront.isAutoAdded x).
  - apply IH.
  - destruct (_ =? target)%string.
    + rewrite (IH (a + _)), (IH (Storefront.quantity x)). lia.
    + apply IH.
Qed.

Lemma storefront_productQuantity_app (target : string)
  (l1 l2 : list Storefront.CartItem) (tok : string) (total : Z) :
  Storefront.productQuantity target
    {| Storefront.token := tok; Storefront.items := l1 ++ l2;
       Storefront.total_price := total |}
  = Storefront.productQuantity target
      {| Storefront.token := tok; Storefront.items := l1;
         Storefront.total_price := total |}
    + Storefront.productQuantity target
        {| Storefront.token := tok; Storefront.items := l2;
           Storefront.total_price := total |}.
Proof.
  unfold Storefront.productQuantity at 1. simpl.
  rewrite fold_left_app.
  rewrite (storefront_productQuantity_from target l2 _ tok total).
  reflexivity.
Qed.

Lemma storefront_productQuantity_cart (target : string)
  (c : Storefront.Cart) (tok : string) (total : Z) :
  Storefront.productQuantity target c
  = Storefront.productQuantity target
      {| Storefront.token := tok; Storefront.items := Storefront.items c;
         Storefront.total_price := total |}.
Proof. reflexivity. Qed.

Lemma storefront_productQuantity_filter (target : string)
  (l : list Storefront.CartItem) (tok : string) (total : Z) :
  Storefront.productQuantity target
    {| Storefront.token := tok; Storefront.items := l;
       Storefront.total_price := total |}
  = Storefront.productQuantity target
      {| Storefront.token := tok;
         Storefront.items :=
           filter (fun item => negb (Storefront.isAutoAdded item)) l;
         Storefront.total_price := total |}.
Proof.
  induction l as [|x l IH]; [reflexivity|].
  change (x :: l) with ([x] ++ l). rewrite storefront_productQuantity_app.
  simpl filter. destruct (Storefront.isAutoAdded x) eqn:E; simpl negb; cbv iota.
  - rewrite <- IH. unfold Storefront.productQuantity at 1. simpl.
    rewrite E. lia.
  - change (x :: filter _ l) with ([x] ++ filter
        (fun item => negb (Storefront.isAutoAdded item)) l).
    rewrite storefront_productQuantity_app, <- IH. reflexivity.
Qed.

(** C2, as stated, fails in the cart transform: the line the storefront
    script added for product 70 is counted by [ruleApplies], and takes the
    count of product 70 out of the range from 1 to 1. *)
Lemma transform_counts_auto_added_line :
  Storefront.isAutoAdded Examples.added = true
  /\ Transform.productQuantity
       (CartAPI.asInput (Examples.cart [Examples.bought])) Examples.productP
     = 1
  /\ Transform.productQuantity
       (CartAPI.asInput (Examples.cart [Examples.bought; Examples.added]))
       Examples.productP
     = 2
  /\ Transform.ruleApplies Examples.exactly_one
       (CartAPI.asInput (Examples.cart [Examples.bought])) = true
  /\ Transform.ruleApplies Examples.exactly_one
       (CartAPI.asInput (Examples.cart [Examples.bought; Examples.added]))
     = false.
Proof. repeat split; vm_compute; reflexivity. Qed.

(** C2, amended: in the storefront script the quantity added up for
    [product_quantity_in_range] leaves out the auto-added lines, so a gift
    line, wherever it stands in the cart and whatever its product, changes
    neither the count nor what the condition answers; in the cart
    transform, whose lines carry no such mark, [ruleApplies] counts every
    line of the product. *)
Theorem product_quantity_by_call_site :
  (forall target cart,
      Storefront.productQuantity target cart
      = Storefront.productQuantity target
          {| Storefront.token := Storefront.token cart;
             Storefront.items :=
               filter (fun item => negb (Storefront.isAutoAdded item))
                 (Storefront.items cart);
             Storefront.total_price := Storefront.total_price cart |})
  /\ (forall productId min max tok before gift after total total',
         Storefront.isAutoAdded gift = true ->
         Storefront.conditionPasses
           (product_quantity_in_range productId min max)
           {| Storefront.token := tok;
              Storefront.items := before ++ gift :: after;
              Storefront.total_price := total' |}
         = Storefront.conditionPasses
             (product_quantity_in_range productId min max)
             {| Storefront.token := tok;
                Storefront.items := before ++ after;
                Storefront.total_price := total |})
  /\ (forall productId l line pid rs idx,
         Transform.productIdOf line = Some pid ->
         JS.trim pid = JS.trim productId ->
         Transform.productQuantity
           {| Transform.lines := l ++ [line]; Transform.rules := rs;
              Transform.collectionIndex := idx |} productId
         = Transform.productQuantity
             {| Transform.lines := l; Transform.rules := rs;
                Transform.collectionIndex := idx |} productId
           + Transform.quantity line).
Proof.
  split; [|split].
  - intros target [tok l total]. apply storefront_productQuantity_filter.
  - intros productId min max tok before gift after total total' Hg.
    unfold Storefront.conditionPasses.
    rewrite (storefront_productQuantity_cart _ _ tok total).
    simpl Storefront.items.
    rewrite !storefront_productQuantity_app.
    change (gift :: after) with ([gift] ++ after).
    rewrite storefront_productQuantity_app.
    assert (E : Storefront.productQuantity
                  (JS.replace_with_empty Storefront.PRODUCT_GID productId)
                  {| Storefront.token := tok; Storefront.items := [gift];
                     Storefront.total_price := total |} = 0).
    { unfold Storefront.productQuantity. simpl. now rewrite Hg. }
    rewrite E, Z.add_0_l. reflexivity.
  - intros productId l line pid rs idx Hp Ht.
    unfold Transform.productQuantity. simpl Transform.lines.
    rewrite fold_left_app. simpl. rewrite Hp, Ht, String.eqb_refl.
    reflexivity.
Qed.

Lemma product_quantity_by_call_site_witness :
  Storefront.conditionPasses
    (product_quantity_in_range Examples.productP 1 (Some 1))
    {| Storefront.token := "c1";
       Storefront.items := [Examples.bought] ++ Examples.added :: [];
       Storefront.total_price := 6000 |}
  = Storefront.conditionPasses
      (product_quantity_in_range Examples.productP 1 (Some 1))
      {| Storefront.token := "c1";
         Storefront.items := [Examples.bought] ++ [];
         Storefront.total_price := 5000 |}
  /\ Transform.productQuantity
       {| Transform.lines :=
            [CartAPI.asCartLine Examples.bought]
              ++ [CartAPI.asCartLine Examples.added];
          Transform.rules := None; Transform.collectionIndex := None |}
       Examples.productP
     = Transform.productQuantity
         {| Transform.lines := [CartAPI.asCartLine Examples.bought];
            Transform.rules := None; Transform.collectionIndex := None |}
         Examples.productP
       + Transform.quantity (CartAPI.asCartLine Examples.added).
Proof.
  destruct product_quantity_by_call_site as [_ [Hs Ht]]. split.
  - apply Hs. reflexivity.
  - apply (Ht Examples.productP _ _ "gid://shopify/Product/70");
      reflexivity.
Defined.

(** ** Maps in insertion order *)

Section MapFacts.
Context {V : Type}.
Implicit Types (m : JS.Map V) (k : string) (v : V).

Lemma has_keys k m : JS.has k m = true <-> In k (JS.keys m).
Proof.
  induction m as [|[k' v'] m IH]; simpl.
  - split; [discriminate | tauto].
  - destruct (String.eqb_spec k' k) as [->|ne].
    + split; auto.
    + rewrite IH. split; [auto | intros [E|H]; [congruence | exact H]].
Qed.

Lemma has_false_keys k m : JS.has k m = false <-> ~ In k (JS.keys m).
Proof.
  rewrite <- has_keys. destruct (JS.has k m); split; congruence.
Qed.

Lemma keys_set k k' v m :
  In k' (JS.keys (JS.set k v m)) <-> k' = k \/ In k' (JS.keys m).
Proof.
  induction m as [|[k0 v0] m IH]; simpl.
  - intuition congruence.
  - destruct (String.eqb_spec k0 k) as [->|ne]; simpl.
    + intuition congruence.
    + rewrite IH. tauto.
Qed.

Lemma keys_delete k k' m :
  In k' (JS.keys (JS.delete k m)) <-> k' <> k /\ In k' (JS.keys m).
Proof.
  induction m as [|[k0 v0] m IH]; simpl.
  - tauto.
  - destruct (String.eqb_spec k0 k) as [->|ne]; simpl.
    + rewrite IH. intuition congruence.
    + rewrite IH. intuition congruence.
Qed.

Lemma NoDup_keys_set k v m :
  NoDup (JS.keys m) -> NoDup (JS.keys (JS.set k v m)).
Proof.
  induction m as [|[k0 v0] m IH]; simpl; intros H.
  - constructor; [tauto | constructor].
  - inversion H as [|? ? Hn Hd]; subst.
    destruct (String.eqb_spec k0 k) as [->|ne]; simpl.
    + constructor; assumption.
    + constructor; [|now apply IH].
      rewrite keys_set. intros [E|H']; [congruence | tauto].
Qed.

Lemma NoDup_keys_delete k m :
  NoDup (JS.keys m) -> NoDup (JS.keys (JS.delete k m)).
Proof.
  induction m as [|[k0 v0] m IH]; simpl; intros H; [constructor|].
  inversion H as [|? ? Hn Hd]; subst.
  destruct (String.eqb_spec k0 k) as [->|ne]; simpl.
  - now apply IH.
  - constructor; [|now apply IH].
    rewrite keys_delete. tauto.
Qed.

End MapFacts.

Lemma set_has_In (x : string) (s : JS.StringSet) :
  JS.set_has x s = true <-> In x s.
Proof.
  unfold JS.set_has. rewrite existsb_exists. split.
  - intros [y [Hy E]]. apply String.eqb_eq in E. now subst.
  - intros H. exists x. split; [exact H | apply String.eqb_refl].
Qed.

Lemma set_add_In (x y : string) (s : JS.StringSet) :
  In y (JS.set_add x s) <-> y = x \/ In y s.
Proof.
  unfold JS.set_add. destruct (JS.set_has x s) eqn:E.
  - apply set_has_In in E. split; [auto | intros [->|H]; assumption].
  - rewrite in_app_iff. simpl. intuition congruence.
Qed.

(** ** The loops of [processCart] that send the calls *)

Section Reconcile.
Import Storefront.

Lemma variantGidOf_inj (a b : CartItem) :
  variantGidOf a = variantGidOf b -> variant_id a = variant_id b.
Proof.
  unfold variantGidOf. intros H.
  now apply String_of_inj, (append_cancel VARIANT_GID).
Qed.

Lemma numericId_variantGidOf (item : CartItem) :
  JS.replace_with_empty VARIANT_GID (variantGidOf item)
  = JS.String_of (variant_id item).
Proof. apply replace_prefixed. Qed.

Lemma checkAutoAdded_absent item rest (W : JS.Map AutoAddRule) :
  JS.has (variantGidOf item) W = false ->
  checkAutoAdded (item :: rest) W
  = (Remove (key item) :: fst (checkAutoAdded rest W),
     snd (checkAutoAdded rest W)).
Proof.
  intros H. simpl. rewrite H. simpl.
  now destruct (checkAutoAdded rest W).
Qed.

Lemma checkAutoAdded_present item rest (W : JS.Map AutoAddRule) :
  JS.has (variantGidOf item) W = true ->
  checkAutoAdded (item :: rest) W
  = ((if negb (quantity item =? 1)
      then [SetQuantity (key item) 1] else [])
       ++ fst (checkAutoAdded rest (JS.delete (variantGidOf item) W)),
     snd (checkAutoAdded rest (JS.delete (variantGidOf item) W))).
Proof.
  intros H. simpl. rewrite H. simpl.
  now destruct (checkAutoAdded rest (JS.delete (variantGidOf item) W)).
Qed.

Lemma checkAutoAdded_app (l1 l2 : list CartItem) (W : JS.Map AutoAddRule) :
  checkAutoAdded (l1 ++ l2) W
  = (fst (checkAutoAdded l1 W)
       ++ fst (checkAutoAdded l2 (snd (checkAutoAdded l1 W))),
     snd (checkAutoAdded l2 (snd (checkAutoAdded l1 W)))).
Proof.
  revert W. induction l1 as [|x l1 IH]; intros W.
  - simpl. now destruct (checkAutoAdded l2 W).
  - rewrite <- app_comm_cons.
    destruct (JS.has (variantGidOf x) W) eqn:E.
    + rewrite !checkAutoAdded_present by exact E.
      rewrite IH. simpl. now rewrite app_assoc.
    + rewrite !checkAutoAdded_absent by exact E.
      rewrite IH. reflexivity.
Qed.

(** What the loop over the auto-added items sends is about those items:
    a removal, or a quantity set to 1. *)
Lemma checkAutoAdded_sent (l : list CartItem) (W : JS.Map AutoAddRule)
  (i : Intent) :
  In i (fst (checkAutoAdded l W)) ->
  exists item,
    In item l
    /\ (i = Remove (key item)
        \/ (i = SetQuantity (key item) 1 /\ quantity item <> 1)).
Proof.
  revert W. induction l as [|x l IH]; intros W; [simpl; tauto|].
  destruct (JS.has (variantGidOf x) W) eqn:E.
  - rewrite checkAutoAdded_present by exact E. simpl fst.
    rewrite in_app_iff. intros [H|H].
    + destruct (Z.eqb_spec (quantity x) 1) as [q|q]; simpl in H; [tauto|].
      destruct H as [<-|[]]. exists x. simpl. auto.
    + destruct (IH _ H) as [item [Hin Hi]]. exists item. simpl. auto.
  - rewrite checkAutoAdded_absent by exact E. simpl.
    intros [<-|H].
    + exists x. auto.
    + destruct (IH _ H) as [item [Hin Hi]]. exists item. auto.
Qed.

(** What the loop leaves in [shouldHaveVariants]: the entries no item it
    went through holds the variant of. *)
Lemma checkAutoAdded_remaining (l : list CartItem)
  (W : JS.Map AutoAddRule) (g : string) :
  In g (JS.keys (snd (checkAutoAdded l W)))
  <-> In g (JS.keys W) /\ forall item, In item l -> variantGidOf item <> g.
Proof.
  revert W. induction l as [|x l IH]; intros W.
  - simpl. intuition.
  - destruct (JS.has (variantGidOf x) W) eqn:E.
    + rewrite checkAutoAdded_present by exact E. simpl snd.
      rewrite IH, keys_delete. split.
      * intros [[Hne Hk] Hl]. split; [exact Hk|].
        intros item [<-|Hin]; [congruence | now apply Hl].
      * intros [Hk Hl]. split; [split; [|exact Hk] |].
        -- intros Heq. apply (Hl x); [now left | congruence].
        -- intros item Hin. apply Hl. now right.
    + rewrite checkAutoAdded_absent by exact E. simpl snd.
      rewrite IH. apply has_false_keys in E. split.
      * intros [Hk Hl]. split; [exact Hk|].
        intros item [<-|Hin]; [congruence | now apply Hl].
      * intros [Hk Hl]. split; [exact Hk|].
        intros item Hin. apply Hl. now right.
Qed.

Lemma checkAutoAdded_remaining_NoDup (l : list CartItem)
  (W : JS.Map AutoAddRule) :
  NoDup (JS.keys W) -> NoDup (JS.keys (snd (checkAutoAdded l W))).
Proof.
  revert W. induction l as [|x l IH]; intros W H; [exact H|].
  destruct (JS.has (variantGidOf x) W) eqn:E.
  - rewrite checkAutoAdded_present by exact E. simpl.
    now apply IH, NoDup_keys_delete.
  - rewrite checkAutoAdded_absent by exact E. simpl. now apply IH.
Qed.

(** What one turn of the loop that adds the missing gifts sends. *)
Lemma addMissing_sent (cart : Cart) (g : string) (r : AutoAddRule)
  (i : Intent) :
  In i (addMissing cart (g, r)) ->
  (i = Add g 1
   /\ forall item, In item (items cart) ->
        JS.String_of (variant_id item)
        <> JS.replace_with_empty VARIANT_GID g)
  \/ (exists item,
         In item (items cart) /\ isAutoAdded item = true
         /\ quantity item <> 1 /\ i = SetQuantity (key item) 1).
Proof.
  unfold addMissing.
  destruct (find _ (items cart)) as [e|] eqn:F.
  - apply find_some in F. destruct F as [Hin _].
    destruct (isAutoAdded e) eqn:A; simpl; [|tauto].
    destruct (Z.eqb_spec (quantity e) 1) as [q|q]; simpl; [tauto|].
    intros [<-|[]]. right. exists e. auto.
  - intros [<-|[]]. left. split; [reflexivity|].
    intros item Hin. apply (find_none _ _ F) in Hin.
    now apply String.eqb_neq.
Qed.

Lemma addMissing_not_in_cart (cart : Cart) (g : string) (r : AutoAddRule) :
  (forall item, In item (items cart) ->
     JS.String_of (variant_id item)
     <> JS.replace_with_empty VARIANT_GID g) ->
  addMissing cart (g, r) = [Add g 1].
Proof.
  intros H. unfold addMissing.
  destruct (find _ (items cart)) as [e|] eqn:F; [|reflexivity].
  apply find_some in F. destruct F as [Hin E].
  apply String.eqb_eq in E. now elim (H e Hin).
Qed.

Lemma evaluate_cycle_eq (rs : list AutoAddRule) (cart : Cart) :
  evaluate_cycle rs cart
  = fst (checkAutoAdded (filter isAutoAdded (items cart))
           (shouldHave rs cart))
      ++ flat_map (addMissing cart)
           (snd (checkAutoAdded (filter isAutoAdded (items cart))
                   (shouldHave rs cart))).
Proof.
  unfold evaluate_cycle.
  now destruct (checkAutoAdded _ (shouldHave rs cart)).
Qed.

(** Every call of a cycle, told by what it is about. *)
Lemma evaluate_cycle_sent (rs : list AutoAddRule) (cart : Cart)
  (i : Intent) :
  In i (evaluate_cycle rs cart) ->
  (exists item,
      In item (items cart) /\ isAutoAdded item = true
      /\ (i = Remove (key item)
          \/ (i = SetQuantity (key item) 1 /\ quantity item <> 1)))
  \/ (exists g,
         In g (JS.keys (shouldHave rs cart)) /\ i = Add g 1
         /\ forall item, In item (items cart) ->
              JS.String_of (variant_id item)
              <> JS.replace_with_empty VARIANT_GID g).
Proof.
  rewrite evaluate_cycle_eq, in_app_iff. intros [H|H].
  - left. apply checkAutoAdded_sent in H.
    destruct H as [item [Hin Hi]]. apply filter_In in Hin.
    exists item. tauto.
  - apply in_flat_map in H. destruct H as [[g r] [Hin Hi]].
    assert (Hg : In g (JS.keys (shouldHave rs cart))).
    { apply (checkAutoAdded_remaining
               (filter isAutoAdded (items cart)) (shouldHave rs cart) g).
      unfold JS.keys. apply in_map_iff. now exists (g, r). }
    apply addMissing_sent in Hi. destruct Hi as [[-> Hn]|[e [He [Ha [Hq ->]]]]].
    + right. exists g. auto.
    + left. exists e. auto.
Qed.

Lemma same_key_same_item (l : list CartItem) (a b : CartItem) :
  NoDup (map key l) -> In a l -> In b l -> key a = key b -> a = b.
Proof.
  induction l as [|x l IH]; simpl; intros Hd Ha Hb E; [tauto|].
  inversion Hd as [|? ? Hn Hd']; subst.
  destruct Ha as [->|Ha], Hb as [->|Hb]; auto.
  - elim Hn. rewrite E. now apply in_map.
  - elim Hn. rewrite <- E. now apply in_map.
Qed.

End Reconcile.

(** ** The quantity of a gift *)

(** C3, as stated, fails: [two_gifts] asks for two units of its gift, and
    the cycle adds one unit where the gift is missing and sets the
    auto-added line that holds two units to one. *)
Lemma gift_quantity_ignores_action_quantity :
  Rule.quantity (action Examples.two_gifts) = Some 2
  /\ Storefront.evaluate_cycle [Examples.two_gifts]
       (Examples.cart [Examples.bought])
     = [Storefront.Add Examples.variantA 1]
  /\ Storefront.evaluate_cycle [Examples.two_gifts]
       (Examples.cart [Examples.bought; Examples.added_twice])
     = [Storefront.SetQuantity (Storefront.key Examples.added_twice) 1].
Proof. repeat split. Qed.

Lemma keys_In_entry {V : Type} (k : string) (m : JS.Map V) :
  In k (JS.keys m) -> exists v, In (k, v) m.
Proof.
  unfold JS.keys. rewrite in_map_iff. intros [[k' v] [E H]].
  simpl in E. subst. now exists v.
Qed.

(** C3, amended: every [Add] and every [SetQuantity] of a cycle carries
    the quantity 1, whatever [action.quantity] says.  The cycle sends
    [Add(variantId, 1)] for a should-have entry no line of the cart holds
    the variant of, and [SetQuantity(lineKey, 1)] for the first auto-added
    line of a should-have variant when its quantity is not 1. *)
Theorem gift_quantity_is_one :
  forall (rs : list AutoAddRule) (cart : Storefront.Cart),
    (forall i, In i (Storefront.evaluate_cycle rs cart) ->
       match i with
       | Storefront.Add _ q => q = 1
       | Storefront.SetQuantity _ q => q = 1
       | Storefront.Remove _ => True
       end)
    /\ (forall g,
           In g (JS.keys (Storefront.shouldHave rs cart)) ->
           (forall item, In item (Storefront.items cart) ->
              JS.String_of (Storefront.variant_id item)
              <> JS.replace_with_empty Storefront.VARIANT_GID g) ->
           In (Storefront.Add g 1) (Storefront.evaluate_cycle rs cart))
    /\ (forall before item after,
           Storefront.items cart = before ++ item :: after ->
           Storefront.isAutoAdded item = true ->
           In (Storefront.variantGidOf item)
             (JS.keys (Storefront.shouldHave rs cart)) ->
           (forall e, In e before -> Storefront.isAutoAdded e = true ->
              Storefront.variant_id e <> Storefront.variant_id item) ->
           Storefront.quantity item <> 1 ->
           In (Storefront.SetQuantity (Storefront.key item) 1)
             (Storefront.evaluate_cycle rs cart)).
Proof.
  intros rs cart. split; [|split].
  - intros i Hi. apply evaluate_cycle_sent in Hi.
    destruct Hi as [[item [_ [_ [->|[-> _]]]]]|[g [_ [-> _]]]]; simpl; auto.
  - intros g Hg Hn. rewrite evaluate_cycle_eq, in_app_iff. right.
    assert (Hr : In g (JS.keys
                         (snd (Storefront.checkAutoAdded
                                 (filter Storefront.isAutoAdded
                                    (Storefront.items cart))
                                 (Storefront.shouldHave rs cart))))).
    { apply checkAutoAdded_remaining. split; [exact Hg|].
      intros item Hin E. apply filter_In in Hin. destruct Hin as [Hin _].
      apply (Hn item Hin). rewrite <- E.
      symmetry. apply numericId_variantGidOf. }
    apply keys_In_entry in Hr. destruct Hr as [r Hr].
    apply in_flat_map. exists (g, r). split; [exact Hr|].
    rewrite addMissing_not_in_cart by exact Hn. now left.
  - intros before item after Hl Ha Hg Hfirst Hq.
    rewrite evaluate_cycle_eq, in_app_iff. left.
    rewrite Hl, filter_app. simpl filter. rewrite Ha.
    rewrite checkAutoAdded_app. cbn [fst]. apply in_or_app. right.
    rewrite checkAutoAdded_present.
    + cbn [fst]. apply in_or_app. left.
      destruct (Z.eqb_spec (Storefront.quantity item) 1); [tauto|].
      now left.
    + apply has_keys, checkAutoAdded_remaining. split; [exact Hg|].
      intros e He E. apply filter_In in He. destruct He as [He Hae].
      apply (Hfirst e He Hae). now apply variantGidOf_inj.
Qed.

Lemma gift_quantity_is_one_witness :
  In (Storefront.Add Examples.variantA 1)
    (Storefront.evaluate_cycle [Examples.two_gifts]
       (Examples.cart [Examples.bought]))
  /\ In (Storefront.SetQuantity (Storefront.key Examples.added_twice) 1)
       (Storefront.evaluate_cycle [Examples.two_gifts]
          (Examples.cart [Examples.bought; Examples.added_twice])).
Proof.
  split.
  - apply (proj1 (proj2 (gift_quantity_is_one [Examples.two_gifts]
                           (Examples.cart [Examples.bought])))).
    + simpl. tauto.
    + intros item [<-|[]]. discriminate.
  - apply (proj2 (proj2 (gift_quantity_is_one [Examples.two_gifts]
                           (Examples.cart
                              [Examples.bought; Examples.added_twice])))
             [Examples.bought] Examples.added_twice []).
    + reflexivity.
    + reflexivity.
    + simpl. tauto.
    + intros e [<-|[]]. discriminate.
    + discriminate.
Defined.

(** ** The customer's own lines *)

(** C7: the cycle leaves alone every line that is not marked as
    auto-added, in a cart whose line keys are distinct: no [Remove] and no
    [SetQuantity] bears its key, whatever its quantity, and no [Add] is
    sent for a should-have variant that the line holds. *)
Theorem manual_lines_untouched :
  forall (rs : list AutoAddRule) (cart : Storefront.Cart)
         (line : Storefront.CartItem),
    NoDup (map Storefront.key (Storefront.items cart)) ->
    In line (Storefront.items cart) ->
    Storefront.isAutoAdded line = false ->
    ~ In (Storefront.Remove (Storefront.key line))
        (Storefront.evaluate_cycle rs cart)
    /\ (forall q,
           ~ In (Storefront.SetQuantity (Storefront.key line) q)
               (Storefront.evaluate_cycle rs cart))
    /\ (forall g q,
           JS.String_of (Storefront.variant_id line)
           = JS.replace_with_empty Storefront.VARIANT_GID g ->
           ~ In (Storefront.Add g q) (Storefront.evaluate_cycle rs cart)).
Proof.
  intros rs cart line Hd Hin Hm.
  assert (K : forall item,
             In item (Storefront.items cart) ->
             Storefront.isAutoAdded item = true ->
             Storefront.key item <> Storefront.key line).
  { intros item Hi Ha E.
    rewrite (same_key_same_item _ _ _ Hd Hi Hin E) in Ha. congruence. }
  split; [|split].
  - intros H. apply evaluate_cycle_sent in H.
    destruct H as [[item [Hi [Ha [E|[E _]]]]]|[g [_ [E _]]]];
      try discriminate.
    injection E as E. now apply (K item Hi Ha).
  - intros q H. apply evaluate_cycle_sent in H.
    destruct H as [[item [Hi [Ha [E|[E _]]]]]|[g [_ [E _]]]];
      try discriminate.
    injection E as E _. now apply (K item Hi Ha).
  - intros g q Hv H. apply evaluate_cycle_sent in H.
    destruct H as [[item [Hi [Ha [E|[E _]]]]]|[g' [_ [E Hn]]]];
      try discriminate.
    injection E as -> _. now apply (Hn line Hin).
Qed.

Lemma manual_lines_untouched_witness :
  Storefront.evaluate_cycle [Examples.two_gifts]
    (Examples.cart [Examples.bought; Examples.own_choice; Examples.stale])
  = [Storefront.Remove "13:c"]
  /\ ~ In (Storefront.Remove (Storefront.key Examples.own_choice))
         (Storefront.evaluate_cycle [Examples.two_gifts]
            (Examples.cart
               [Examples.bought; Examples.own_choice; Examples.stale]))
  /\ (forall q,
         ~ In (Storefront.SetQuantity (Storefront.key Examples.own_choice) q)
             (Storefront.evaluate_cycle [Examples.two_gifts]
                (Examples.cart
                   [Examples.bought; Examples.own_choice; Examples.stale])))
  /\ (forall g q,
         JS.String_of (Storefront.variant_id Examples.own_choice)
         = JS.replace_with_empty Storefront.VARIANT_GID g ->
         ~ In (Storefront.Add g q)
             (Storefront.evaluate_cycle [Examples.two_gifts]
                (Examples.cart
                   [Examples.bought; Examples.own_choice; Examples.stale]))).
Proof.
  split; [reflexivity|].
  apply (manual_lines_untouched [Examples.two_gifts]
           (Examples.cart
              [Examples.bought; Examples.own_choice; Examples.stale])
           Examples.own_choice).
  - simpl. repeat constructor; simpl; intuition discriminate.
  - simpl. tauto.
  - reflexivity.
Defined.

(** ** The loop over the rules: groups *)

Section Matching.
Import Storefront.
Variable cart : Cart.

(** One turn of the loop: either the rule is recorded, and it matches
    and its group was not seen, or the state stays as it was. *)
Lemma matchStep_cases (M : JS.Map AutoAddRule) (G : JS.StringSet)
  (r : AutoAddRule) :
  (evaluateRule r cart = true
   /\ (forall g, grouped r g -> ~ In g G)
   /\ fst (matchStep cart (M, G) r) = JS.set (addVariantId (action r)) r M
   /\ (forall g, In g (snd (matchStep cart (M, G) r))
                 <-> In g G \/ grouped r g))
  \/ ((evaluateRule r cart = false \/ exists g, grouped r g /\ In g G)
      /\ matchStep cart (M, G) r = (M, G)).
Proof.
  unfold matchStep, grouped.
  destruct (evaluateRule r cart) eqn:E; [|right; auto].
  destruct (group r) as [g|] eqn:Eg.
  - destruct (JS.truthy g) eqn:Et.
    + destruct (JS.set_has g G) eqn:Es.
      * right. split; [right; exists g|reflexivity].
        apply set_has_In in Es. auto.
      * left. split; [reflexivity|]. split; [|split; [reflexivity|]].
        -- intros g' [[= <-] _] Hin. apply set_has_In in Hin. congruence.
        -- intros g'. simpl. rewrite set_add_In. split.
           ++ intros [->|H]; auto.
           ++ intros [H|[[= <-] _]]; auto.
    + left. split; [reflexivity|]. split; [|split; [reflexivity|]].
      * intros g' [[= <-] H]. congruence.
      * intros g'. simpl. split; [auto|].
        intros [H|[[= <-] H]]; [exact H | congruence].
  - left. split; [reflexivity|]. split; [|split; [reflexivity|]].
    + intros g' [H _]. discriminate.
    + intros g'. simpl. split; [auto|].
      intros [H|[H _]]; [exact H | discriminate].
Qed.

(** Once a matching rule of a group went through the loop, the group is
    seen. *)
Lemma matchStep_seen (M : JS.Map AutoAddRule) (G : JS.StringSet)
  (r : AutoAddRule) (g : string) :
  In g G \/ (evaluateRule r cart = true /\ grouped r g) ->
  In g (snd (matchStep cart (M, G) r)).
Proof.
  intros H.
  destruct (matchStep_cases M G r)
    as [[Hm [Hn [_ Hs]]]|[[Hf|[g' [Hg' Hin]]] ->]]; simpl.
  - apply Hs. tauto.
  - destruct H as [H|[H _]]; [exact H | congruence].
  - destruct H as [H|[_ [H1 H2]]]; [exact H|].
    destruct Hg' as [H1' _]. congruence.
Qed.

Lemma seen_groups (l : list AutoAddRule) (M : JS.Map AutoAddRule)
  (G : JS.StringSet) (g : string) :
  In g (snd (fold_left (matchStep cart) l (M, G)))
  <-> In g G
      \/ exists r, In r l /\ evaluateRule r cart = true /\ grouped r g.
Proof.
  revert M G. induction l as [|r l IH]; intros M G; cbn [fold_left].
  - simpl. split; [auto | intros [H|[r [[] _]]]; exact H].
  - destruct (matchStep cart (M, G) r) as [M' G'] eqn:E.
    rewrite IH. split.
    + intros [H|[r' [Hin Hr']]].
      * destruct (matchStep_cases M G r)
          as [[Hm [_ [_ Hs]]]|[_ E']]; rewrite E in *; cbn [fst snd] in *.
        -- apply Hs in H. destruct H as [H|H]; [auto|].
           right. exists r. simpl. auto.
        -- injection E' as -> ->. auto.
      * right. exists r'. simpl. tauto.
    + intros [H|[r' [[<-|Hin] Hr']]].
      * left. change G' with (snd (M', G')). rewrite <- E.
        apply matchStep_seen. auto.
      * left. change G' with (snd (M', G')). rewrite <- E.
        apply matchStep_seen. auto.
      * right. exists r'. auto.
Qed.

Lemma recorded_keys_grow (l : list AutoAddRule) (M : JS.Map AutoAddRule)
  (G : JS.StringSet) (k : string) :
  In k (JS.keys M) ->
  In k (JS.keys (fst (fold_left (matchStep cart) l (M, G)))).
Proof.
  revert M G.
  induction l as [|r l IH]; intros M G H; cbn [fold_left]; [exact H|].
  destruct (matchStep cart (M, G) r) as [M' G'] eqn:E.
  apply IH.
  destruct (matchStep_cases M G r) as [[_ [_ [Hm _]]]|[_ E']];
    rewrite E in *; cbn [fst snd] in *.
  - subst M'. apply keys_set. auto.
  - injection E' as -> ->. exact H.
Qed.

(** Where an entry of the mapping comes from: it was there, or a rule
    recorded it; that rule matches and no matching rule of its group
    stands before it. *)
Lemma recorded_keys_origin (l : list AutoAddRule) (M : JS.Map AutoAddRule)
  (G : JS.StringSet) (k : string) :
  In k (JS.keys (fst (fold_left (matchStep cart) l (M, G)))) ->
  In k (JS.keys M)
  \/ exists a r b,
       l = a ++ r :: b /\ evaluateRule r cart = true /\ addVariantId (action r) = k
       /\ forall g, grouped r g ->
            ~ In g G
            /\ forall r', In r' a -> evaluateRule r' cart = true ->
                 ~ grouped r' g.
Proof.
  revert M G.
  induction l as [|r l IH]; intros M G; cbn [fold_left]; [simpl; auto|].
  destruct (matchStep cart (M, G) r) as [M' G'] eqn:E.
  intros H. apply IH in H.
  assert (Seen : forall g, In g G \/ (evaluateRule r cart = true
                                      /\ grouped r g) -> In g G').
  { intros g Hg. change G' with (snd (M', G')). rewrite <- E.
    now apply matchStep_seen. }
  destruct H as [H|[a [r0 [b [-> [Hm [Ht Hg]]]]]]].
  - destruct (matchStep_cases M G r) as [[Hm [Hn [HM _]]]|[_ E']];
      rewrite E in *; cbn [fst snd] in *.
    + subst M'. apply keys_set in H. destruct H as [->|H]; [|auto].
      right. exists [], r, l.
      split; [reflexivity|]. split; [exact Hm|]. split; [reflexivity|].
      intros g Hgr. split; [now apply Hn | intros r' []].
    + injection E' as -> ->. auto.
  - right. exists (r :: a), r0, b.
    split; [reflexivity|]. split; [exact Hm|]. split; [exact Ht|].
    intros g Hgr. destruct (Hg g Hgr) as [HnG Ha]. split.
    + intros Hin. apply HnG, Seen. auto.
    + intros r' [<-|Hin] Hr' Hgr'.
      * apply HnG, Seen. auto.
      * now apply (Ha r').
Qed.

(** The first matching rule of a group is recorded. *)
Lemma first_of_group_recorded (before after : list AutoAddRule)
  (first : AutoAddRule) (g : string) :
  grouped first g ->
  evaluateRule first cart = true ->
  (forall r, In r before -> evaluateRule r cart = true -> ~ grouped r g) ->
  In (addVariantId (action first))
    (JS.keys (shouldHave (before ++ first :: after) cart)).
Proof.
  intros Hg Hm Hfirst. unfold shouldHave.
  rewrite fold_left_app. cbn [fold_left].
  destruct (fold_left (matchStep cart) before ([], [])) as [M G] eqn:E.
  assert (HG : ~ In g G).
  { change G with (snd (M, G)). rewrite <- E, seen_groups.
    intros [[]|[r [Hin [Hr Hgr]]]]. now apply (Hfirst r). }
  destruct (matchStep cart (M, G) first) as [M' G'] eqn:E'.
  apply recorded_keys_grow.
  destruct (matchStep_cases M G first)
    as [[_ [_ [HM _]]]|[[Hf|[g' [[Hg1 _] Hin]]] _]];
    rewrite ?E' in *; cbn [fst snd] in *.
  - subst M'. apply keys_set. auto.
  - congruence.
  - destruct Hg as [Hg2 _]. rewrite Hg1 in Hg2. injection Hg2 as ->.
    tauto.
Qed.

Lemma split_before_first {A : Type} (before rest a b : list A) (x r : A) :
  before ++ x :: rest = a ++ r :: b ->
  ~ In x a -> (a = before /\ r = x) \/ In r before.
Proof.
  revert a. induction before as [|y before IH]; intros a E Hn.
  - destruct a as [|z a]; simpl in E; injection E as E1 E2.
    + left. auto.
    + subst z. elim Hn. now left.
  - destruct a as [|z a]; simpl in E; injection E as E1 E2.
    + right. subst. now left.
    + destruct (IH a E2) as [[-> ->]|H].
      * intros H. apply Hn. now right.
      * left. subst. auto.
      * right. now right.
Qed.

End Matching.

(** C6, as stated, fails: [tier_first] and [tier_second] share the group
    "tier" and both match, yet the mapping holds the target variants of
    both, the second one on behalf of [ungrouped]. *)
Lemma later_target_recorded_by_other_rule :
  group Examples.tier_first = Some "tier"
  /\ group Examples.tier_second = Some "tier"
  /\ Storefront.evaluateRule Examples.tier_first
       (Examples.cart [Examples.bought]) = true
  /\ Storefront.evaluateRule Examples.tier_second
       (Examples.cart [Examples.bought]) = true
  /\ addVariantId (action Examples.tier_first)
     <> addVariantId (action Examples.tier_second)
  /\ JS.keys
       (Storefront.shouldHave
          [Examples.tier_first; Examples.tier_second; Examples.ungrouped]
          (Examples.cart [Examples.bought]))
     = [ addVariantId (action Examples.tier_first);
         addVariantId (action Examples.tier_second) ].
Proof. repeat split. discriminate. Qed.

(** C6, amended: when rules that share a non-empty group match the cart,
    the first of them in rule-set order is the only one of the group
    that is recorded.  The mapping holds its target variant, and it holds
    the target variant of a later one only if that variant is also the
    target of the first one or of a matching rule outside the group. *)
Theorem first_match_wins_in_group :
  forall (cart : Storefront.Cart)
         (before between after : list AutoAddRule)
         (first later : AutoAddRule) (g : string),
    group first = Some g -> group later = Some g -> JS.truthy g = true ->
    Storefront.evaluateRule first cart = true ->
    Storefront.evaluateRule later cart = true ->
    (forall r, In r before -> Storefront.evaluateRule r cart = true ->
       group r <> Some g) ->
    let rs := before ++ first :: between ++ later :: after in
    In (addVariantId (action first))
      (JS.keys (Storefront.shouldHave rs cart))
    /\ (In (addVariantId (action later))
          (JS.keys (Storefront.shouldHave rs cart)) ->
        exists r,
          In r rs /\ Storefront.evaluateRule r cart = true
          /\ addVariantId (action r) = addVariantId (action later)
          /\ (r = first \/ group r <> Some g)).
Proof.
  intros cart before between after first later g Hgf Hgl Ht Hmf Hml Hfirst rs.
  split.
  - apply (first_of_group_recorded cart before _ first g);
      [split; assumption | assumption |].
    intros r Hin Hr [Hg _]. now apply (Hfirst r).
  - intros H. unfold Storefront.shouldHave in H.
    apply recorded_keys_origin in H.
    destruct H as [[]|[a [r [b [E [Hm [Hk Hg]]]]]]].
    exists r. split; [rewrite E; apply in_elt|].
    split; [exact Hm|]. split; [exact Hk|].
    assert (D : group r = Some g \/ group r <> Some g).
    { destruct (group r) as [g'|]; [|right; discriminate].
      destruct (string_dec g' g) as [->|ne]; [left; reflexivity|].
      right. congruence. }
    destruct D as [D|D]; [|right; exact D]. left.
    destruct (Hg g (conj D Ht)) as [_ Ha].
    destruct (split_before_first before (between ++ later :: after)
                a b first r E) as [[_ ->]|Hin].
    + intros Hin. now apply (Ha first Hin Hmf).
    + reflexivity.
    + now elim (Hfirst r Hin Hm).
Qed.

Lemma first_match_wins_in_group_witness :
  In (addVariantId (action Examples.tier_first))
    (JS.keys
       (Storefront.shouldHave
          ([] ++ Examples.tier_first
              :: [] ++ Examples.tier_second :: [Examples.ungrouped])
          (Examples.cart [Examples.bought])))
  /\ (In (addVariantId (action Examples.tier_second))
        (JS.keys
           (Storefront.shouldHave
              ([] ++ Examples.tier_first
                  :: [] ++ Examples.tier_second :: [Examples.ungrouped])
              (Examples.cart [Examples.bought]))) ->
      exists r,
        In r ([] ++ Examples.tier_first
                 :: [] ++ Examples.tier_second :: [Examples.ungrouped])
        /\ Storefront.evaluateRule r (Examples.cart [Examples.bought]) = true
        /\ addVariantId (action r)
           = addVariantId (action Examples.tier_second)
        /\ (r = Examples.tier_first \/ group r <> Some "tier")).
Proof.
  apply (first_match_wins_in_group (Examples.cart [Examples.bought])
           [] [] [Examples.ungrouped]
           Examples.tier_first Examples.tier_second "tier").
  - reflexivity.
  - reflexivity.
  - reflexivity.
  - reflexivity.
  - reflexivity.
  - intros r [].
Defined.

(** ** The cart a cycle leaves behind *)

Section AfterCycle.
Import Storefront CartAPI.
Variable catalog : N -> Variant.

Lemma items_applyIntents (sent : list Intent) (cart : Cart) :
  items (applyIntents catalog sent cart)
  = fold_left (applyToItems catalog) sent (items cart).
Proof.
  unfold applyIntents. revert cart.
  induction sent as [|i sent IH]; intros cart; [reflexivity|].
  simpl. now rewrite IH.
Qed.

Lemma withoutLine_absent (k : string) (l : list CartItem) :
  ~ In k (map key l) -> withoutLine k l = l.
Proof.
  unfold withoutLine. induction l as [|x l IH]; simpl; intros H; auto.
  destruct (String.eqb_spec (key x) k) as [E|ne]; simpl; [tauto|].
  f_equal. apply IH. tauto.
Qed.

Lemma setQuantity_absent (k : string) (q : Z) (l : list CartItem) :
  ~ In k (map key l) ->
  map (fun item => if (key item =? k)%string
                   then setQuantity q item else item) l = l.
Proof.
  induction l as [|x l IH]; simpl; intros H; auto.
  destruct (String.eqb_spec (key x) k) as [E|ne]; [tauto|].
  f_equal. apply IH. tauto.
Qed.

Lemma setQuantity_same (item : CartItem) :
  setQuantity (quantity item) item = item.
Proof. now destruct item. Qed.

(** Calls about other lines leave a line where and as it is. *)
Lemma apply_frame (keys : list string) (sent : list Intent)
  (x : CartItem) (l : list CartItem) :
  (forall i, In i sent -> about keys i) ->
  ~ In (key x) keys ->
  fold_left (applyToItems catalog) sent (x :: l)
  = x :: fold_left (applyToItems catalog) sent l.
Proof.
  intros Hs Hx. revert l.
  induction sent as [|i sent IH]; intros l; [reflexivity|].
  assert (Hi : about keys i) by (apply Hs; now left).
  assert (E : applyToItems catalog (x :: l) i
              = x :: applyToItems catalog l i).
  { destruct i as [k|k q|g q]; simpl in Hi; [| |tauto].
    - simpl. unfold withoutLine. simpl.
      destruct (String.eqb_spec (key x) k) as [E|ne]; [|reflexivity].
      subst. tauto.
    - simpl. destruct (q <=? 0).
      + unfold withoutLine. simpl.
        destruct (String.eqb_spec (key x) k) as [E|ne]; [|reflexivity].
        subst. tauto.
      + simpl. destruct (String.eqb_spec (key x) k) as [E|ne];
          [|reflexivity].
        subst. tauto. }
  simpl. rewrite E. apply IH. intros j Hj. apply Hs. now right.
Qed.

Lemma checkAutoAdded_about (l : list CartItem) (W : JS.Map AutoAddRule)
  (i : Intent) :
  In i (fst (checkAutoAdded (filter isAutoAdded l) W)) ->
  about (map key l) i.
Proof.
  intros H. apply checkAutoAdded_sent in H.
  destruct H as [item [Hin Hi]]. apply filter_In in Hin.
  destruct Hin as [Hin _].
  destruct Hi as [->|[-> _]]; simpl; now apply in_map.
Qed.

(** The calls of the loop over the auto-added items, applied to a cart
    whose line keys are distinct, leave the lines [kept] tells. *)
Lemma apply_checkAutoAdded (l : list CartItem) (W : JS.Map AutoAddRule) :
  NoDup (map key l) ->
  fold_left (applyToItems catalog)
    (fst (checkAutoAdded (filter isAutoAdded l) W)) l
  = kept W l.
Proof.
  revert W. induction l as [|x l IH]; intros W Hd; [reflexivity|].
  inversion Hd as [|? ? Hx Hd']; subst.
  cbn [filter kept]. destruct (isAutoAdded x) eqn:Ea.
  - destruct (JS.has (variantGidOf x) W) eqn:Eh.
    + rewrite checkAutoAdded_present by exact Eh. cbn [fst].
      rewrite fold_left_app.
      assert (E : fold_left (applyToItems catalog)
                    (if negb (quantity x =? 1)
                     then [SetQuantity (key x) 1] else []) (x :: l)
                  = setQuantity 1 x :: l).
      { destruct (Z.eqb_spec (quantity x) 1) as [q|q]; simpl.
        - now rewrite <- q, setQuantity_same.
        - rewrite String.eqb_refl.
          now rewrite setQuantity_absent by exact Hx. }
      rewrite E.
      rewrite (apply_frame (map key l)).
      * now rewrite IH.
      * intros i. apply checkAutoAdded_about.
      * exact Hx.
    + rewrite checkAutoAdded_absent by exact Eh. cbn [fst fold_left].
      assert (E : applyToItems catalog (x :: l) (Remove (key x)) = l).
      { simpl. unfold withoutLine. simpl. rewrite String.eqb_refl. simpl.
        now apply withoutLine_absent. }
      rewrite E. now apply IH.
  - rewrite (apply_frame (map key l)).
    + now rewrite IH.
    + intros i. apply checkAutoAdded_about.
    + exact Hx.
Qed.

Lemma inCart_exists (l : list CartItem) (g : string) :
  inCart l g = true
  <-> exists item,
        In item l
        /\ JS.String_of (variant_id item)
           = JS.replace_with_empty VARIANT_GID g.
Proof.
  unfold inCart. rewrite existsb_exists.
  split; intros [item [Hin E]]; exists item; split; auto;
    now apply String.eqb_eq.
Qed.

(** Where every line that holds the variant is the customer's, the loop
    that adds the missing gifts sends an [Add] or nothing. *)
Lemma addMissing_manual (cart : Cart) (g : string) (r : AutoAddRule) :
  (forall item, In item (items cart) ->
     JS.String_of (variant_id item) = JS.replace_with_empty VARIANT_GID g ->
     isAutoAdded item = false) ->
  addMissing cart (g, r)
  = if inCart (items cart) g then [] else [Add g 1].
Proof.
  intros H. unfold addMissing.
  destruct (find _ (items cart)) as [e|] eqn:F.
  - apply find_some in F. destruct F as [Hin E].
    apply String.eqb_eq in E. rewrite (H e Hin E). simpl.
    assert (I : inCart (items cart) g = true)
      by (apply inCart_exists; now exists e).
    now rewrite I.
  - destruct (inCart (items cart) g) eqn:I; [|reflexivity].
    apply inCart_exists in I. destruct I as [item [Hin E]].
    apply (find_none _ _ F) in Hin.
    apply String.eqb_neq in Hin. tauto.
Qed.

Lemma added_cons (l : list CartItem) (g : string) (gids : list string) :
  added catalog l (g :: gids)
  = (if inCart l g then []
     else match
            JS.parseInt (JS.replace_with_empty VARIANT_GID g)
          with
          | Some variant => [newLine catalog variant 1]
          | None => []
          end)
      ++ added catalog l gids.
Proof. reflexivity. Qed.

Lemma apply_adds (l : list CartItem) (W : JS.Map AutoAddRule)
  (cart : Cart) :
  (forall g r, In (g, r) W ->
     addMissing cart (g, r)
     = if inCart (items cart) g then [] else [Add g 1]) ->
  fold_left (applyToItems catalog) (flat_map (addMissing cart) W) l
  = l ++ added catalog (items cart) (JS.keys W).
Proof.
  revert l. induction W as [|[g r] W IH]; intros l H.
  - simpl. now rewrite app_nil_r.
  - cbn [flat_map JS.keys map fst]. rewrite fold_left_app.
    rewrite (H g r) by now left.
    rewrite added_cons.
    assert (H' : forall g' r', In (g', r') W ->
              addMissing cart (g', r')
              = if inCart (items cart) g' then [] else [Add g' 1])
      by (intros g' r' Hin; apply H; now right).
    destruct (inCart (items cart) g).
    + simpl. now apply IH.
    + simpl.
      destruct (JS.parseInt (JS.replace_with_empty VARIANT_GID g)).
      * rewrite IH by exact H'. now rewrite <- app_assoc.
      * now apply IH.
Qed.

Lemma kept_manual (W : JS.Map AutoAddRule) (l : list CartItem)
  (item : CartItem) :
  In item l -> isAutoAdded item = false -> In item (kept W l).
Proof.
  revert W. induction l as [|x l IH]; intros W Hin Hm; [tauto|].
  cbn [kept]. destruct Hin as [->|Hin].
  - rewrite Hm. now left.
  - destruct (isAutoAdded x).
    + destruct (JS.has (variantGidOf x) W); [right|]; now apply IH.
    + right. now apply IH.
Qed.

Lemma isAutoAdded_setQuantity (q : Z) (item : CartItem) :
  isAutoAdded (setQuantity q item) = isAutoAdded item.
Proof. reflexivity. Qed.

Lemma kept_filter_manual (W : JS.Map AutoAddRule) (l : list CartItem) :
  filter (fun item => negb (isAutoAdded item)) (kept W l)
  = filter (fun item => negb (isAutoAdded item)) l.
Proof.
  revert W. induction l as [|x l IH]; intros W; [reflexivity|].
  cbn [kept filter]. destruct (isAutoAdded x) eqn:Ea; simpl.
  - destruct (JS.has (variantGidOf x) W); [|apply IH].
    cbn [filter]. rewrite isAutoAdded_setQuantity, Ea. simpl. apply IH.
  - rewrite Ea. simpl. f_equal. apply IH.
Qed.

(** The next cycle goes through the kept lines without a call, and
    leaves of [shouldHaveVariants] what the cycle before did. *)
Lemma checkAutoAdded_kept (l : list CartItem) (W : JS.Map AutoAddRule) :
  checkAutoAdded (filter isAutoAdded (kept W l)) W
  = ([], snd (checkAutoAdded (filter isAutoAdded l) W)).
Proof.
  revert W. induction l as [|x l IH]; intros W; [reflexivity|].
  cbn [kept filter]. destruct (isAutoAdded x) eqn:Ea.
  - destruct (JS.has (variantGidOf x) W) eqn:Eh.
    + cbn [filter]. rewrite isAutoAdded_setQuantity, Ea.
      rewrite !checkAutoAdded_present by exact Eh.
      change (variantGidOf (setQuantity 1 x)) with (variantGidOf x).
      rewrite IH. reflexivity.
    + rewrite checkAutoAdded_absent by exact Eh. cbn [snd]. apply IH.
  - cbn [filter]. rewrite Ea. apply IH.
Qed.

Lemma added_autoAdded (l : list CartItem) (gids : list string) :
  filter isAutoAdded (added catalog l gids) = added catalog l gids.
Proof.
  induction gids as [|g gids IH]; [reflexivity|].
  rewrite added_cons, filter_app, IH. f_equal.
  destruct (inCart l g); [reflexivity|].
  now destruct (JS.parseInt _).
Qed.

Lemma added_manual_none (l : list CartItem) (gids : list string) :
  filter (fun item => negb (isAutoAdded item)) (added catalog l gids) = [].
Proof.
  induction gids as [|g gids IH]; [reflexivity|].
  rewrite added_cons, filter_app, IH, app_nil_r.
  destruct (inCart l g); [reflexivity|].
  now destruct (JS.parseInt _).
Qed.

Lemma added_In (l : list CartItem) (gids : list string) (g : string) :
  In g gids -> canonical g -> inCart l g = false ->
  exists item, In item (added catalog l gids) /\ variantGidOf item = g.
Proof.
  intros Hin [n ->] Hc. exists (newLine catalog n 1). split; [|reflexivity].
  unfold added. apply in_flat_map.
  exists (VARIANT_GID ++ JS.String_of n)%string. split; [exact Hin|].
  rewrite Hc, replace_prefixed, parseInt_String_of. now left.
Qed.

(** The next cycle goes through the added lines without a call. *)
Lemma checkAutoAdded_added (l : list CartItem) (gids : list string)
  (W : JS.Map AutoAddRule) :
  NoDup gids ->
  (forall g, In g gids -> In g (JS.keys W) /\ canonical g) ->
  fst (checkAutoAdded (added catalog l gids) W) = [].
Proof.
  revert W. induction gids as [|g gids IH]; intros W Hd H; [reflexivity|].
  inversion Hd as [|? ? Hg Hd']; subst.
  rewrite added_cons.
  destruct (inCart l g).
  - simpl. apply IH; [exact Hd'|]. intros g' Hin. apply H. now right.
  - destruct (H g (or_introl eq_refl)) as [Hk [n ->]].
    rewrite replace_prefixed, parseInt_String_of. cbn [app].
    rewrite checkAutoAdded_present by (now apply has_keys).
    cbn [fst]. simpl negb. cbv iota. cbn [app].
    apply IH; [exact Hd'|]. intros g' Hin.
    destruct (H g' (or_intror Hin)) as [Hk' Hc']. split; [|exact Hc'].
    apply keys_delete. split; [|exact Hk'].
    intros ->. tauto.
Qed.

End AfterCycle.

(** ** Running the cycle again *)

Section NextCycle.
Import Storefront CartAPI.
Variable catalog : N -> Variant.

Lemma shouldHave_NoDup (rs : list AutoAddRule) (cart : Cart) :
  NoDup (JS.keys (shouldHave rs cart)).
Proof.
  unfold shouldHave.
  assert (G : forall l M S,
             NoDup (JS.keys M) ->
             NoDup (JS.keys (fst (fold_left (matchStep cart) l (M, S))))).
  { induction l as [|r l IH]; intros M S H; [exact H|].
    cbn [fold_left].
    destruct (matchStep cart (M, S) r) as [M' S'] eqn:E.
    apply IH.
    destruct (matchStep_cases cart M S r) as [[_ [_ [HM _]]]|[_ E']];
      rewrite E in *; cbn [fst] in *.
    - subst M'. now apply NoDup_keys_set.
    - now injection E' as -> ->. }
  apply G. constructor.
Qed.

Lemma shouldHave_targets (rs : list AutoAddRule) (cart : Cart)
  (g : string) :
  In g (JS.keys (shouldHave rs cart)) ->
  exists r, In r rs /\ addVariantId (action r) = g.
Proof.
  unfold shouldHave. intros H. apply recorded_keys_origin in H.
  destruct H as [[]|[a [r [b [-> [_ [Hk _]]]]]]].
  exists r. split; [apply in_elt | exact Hk].
Qed.

Lemma shouldHave_ext (rs : list AutoAddRule) (c1 c2 : Cart) :
  (forall r, In r rs -> evaluateRule r c1 = evaluateRule r c2) ->
  shouldHave rs c1 = shouldHave rs c2.
Proof.
  unfold shouldHave. generalize (@nil (string * AutoAddRule),
                                 @nil string).
  induction rs as [|r rs IH]; intros st H; [reflexivity|].
  cbn [fold_left].
  assert (E : matchStep c1 st r = matchStep c2 st r).
  { unfold matchStep. destruct st as [M S].
    now rewrite (H r (or_introl eq_refl)). }
  rewrite E. apply IH. intros r' Hin. apply H. now right.
Qed.

Lemma canonical_match (item : CartItem) (g : string) :
  canonical g ->
  JS.String_of (variant_id item) = JS.replace_with_empty VARIANT_GID g ->
  variantGidOf item = g.
Proof.
  intros [n ->]. rewrite replace_prefixed. intros E.
  apply String_of_inj in E. unfold variantGidOf. now rewrite E.
Qed.

Lemma flat_map_nil {A B : Type} (f : A -> list B) (l : list A) :
  (forall x, In x l -> f x = []) -> flat_map f l = [].
Proof.
  induction l as [|x l IH]; intros H; [reflexivity|].
  simpl. rewrite (H x) by now left. apply IH.
  intros y Hy. apply H. now right.
Qed.

Section OneCart.
Variables (rs : list AutoAddRule) (cart : Cart).
Hypothesis distinct_keys : NoDup (map key (items cart)).
Hypothesis canonical_targets :
  forall r, In r rs -> canonical (addVariantId (action r)).

Lemma canonical_keys (g : string) :
  In g (JS.keys (shouldHave rs cart)) -> canonical g.
Proof.
  intros H. apply shouldHave_targets in H.
  destruct H as [r [Hin <-]]. now apply canonical_targets.
Qed.

(** A line of the cart that holds a variant still asked for after
    the first loop is the customer's. *)
Lemma remaining_held_by_customer (g : string) (item : CartItem) :
  In g (JS.keys (remaining rs cart)) -> In item (items cart) ->
  JS.String_of (variant_id item) = JS.replace_with_empty VARIANT_GID g ->
  isAutoAdded item = false.
Proof.
  intros Hg Hin E. unfold remaining in Hg.
  apply checkAutoAdded_remaining in Hg. destruct Hg as [Hs Hn].
  destruct (isAutoAdded item) eqn:Ea; [|reflexivity].
  elim (Hn item).
  - apply filter_In. auto.
  - apply canonical_match; [now apply canonical_keys | exact E].
Qed.

(** The lines of the cart once the calls of the cycle are applied. *)
Lemma items_after_cycle :
  items (applyIntents catalog (evaluate_cycle rs cart) cart)
  = kept (shouldHave rs cart) (items cart)
      ++ added catalog (items cart) (JS.keys (remaining rs cart)).
Proof.
  rewrite items_applyIntents, evaluate_cycle_eq, fold_left_app.
  rewrite apply_checkAutoAdded by exact distinct_keys.
  fold (remaining rs cart). apply apply_adds.
  intros g r Hin. apply addMissing_manual.
  intros item Hi E. apply (remaining_held_by_customer g); auto.
  unfold JS.keys. apply in_map_iff. now exists (g, r).
Qed.

(** A cart with those lines, on which the rules give the same
    mapping, needs no call. *)
Lemma settled (cart' : Cart) :
  items cart'
  = kept (shouldHave rs cart) (items cart)
      ++ added catalog (items cart) (JS.keys (remaining rs cart)) ->
  shouldHave rs cart' = shouldHave rs cart ->
  evaluate_cycle rs cart' = [].
Proof.
  intros Hitems Hsame.
  rewrite evaluate_cycle_eq, Hsame, Hitems.
  rewrite filter_app, added_autoAdded, checkAutoAdded_app.
  rewrite checkAutoAdded_kept. cbn [fst snd app].
  fold (remaining rs cart).
  set (Wf := remaining rs cart) in *.
  assert (Hd : NoDup (JS.keys Wf))
    by (apply checkAutoAdded_remaining_NoDup, shouldHave_NoDup).
  assert (Hc : forall g, In g (JS.keys Wf) -> canonical g).
  { intros g Hg. apply checkAutoAdded_remaining in Hg.
    now apply canonical_keys. }
  rewrite checkAutoAdded_added; [|exact Hd|auto]. cbn [app].
  apply flat_map_nil. intros [g r] Hin.
  assert (Hg : In g (JS.keys
                       (snd (checkAutoAdded
                               (added catalog (items cart) (JS.keys Wf))
                               Wf))))
    by (unfold JS.keys; apply in_map_iff; now exists (g, r)).
  apply checkAutoAdded_remaining in Hg. destruct Hg as [Hw Hnew].
  assert (Hin' : inCart (items cart) g = true).
  { destruct (inCart (items cart) g) eqn:I; [reflexivity|].
    destruct (added_In catalog (items cart) (JS.keys Wf) g Hw
                (Hc g Hw) I) as [item [Hi Hgid]].
    now elim (Hnew item Hi). }
  apply inCart_exists in Hin'. destruct Hin' as [x [Hx Ex]].
  assert (Hm : isAutoAdded x = false)
    by (now apply (remaining_held_by_customer g)).
  rewrite addMissing_manual.
  - assert (I : inCart (items cart') g = true).
    { apply inCart_exists. exists x. split; [|exact Ex].
      rewrite Hitems. apply in_or_app. left. now apply kept_manual. }
    now rewrite I.
  - intros item Hi E. rewrite Hitems in Hi.
    destruct (isAutoAdded item) eqn:Ea; [|reflexivity].
    assert (Hgid : variantGidOf item = g)
      by (apply canonical_match; [now apply Hc | exact E]).
    apply in_app_or in Hi. destruct Hi as [Hi|Hi].
    + assert (Hk : In g (JS.keys
                           (snd (checkAutoAdded
                                   (filter isAutoAdded
                                      (kept (shouldHave rs cart)
                                         (items cart)))
                                   (shouldHave rs cart))))).
      { rewrite checkAutoAdded_kept. exact Hw. }
      apply checkAutoAdded_remaining in Hk. destruct Hk as [_ Hk].
      elim (Hk item); [|exact Hgid]. apply filter_In. auto.
    + now elim (Hnew item Hi).
Qed.

(** The cycle is idempotent as soon as applying its calls does not
    change what the rules answer. *)
Lemma cycle_settles :
  (forall r, In r rs ->
     evaluateRule r (applyIntents catalog (evaluate_cycle rs cart) cart)
     = evaluateRule r cart) ->
  evaluate_cycle rs (applyIntents catalog (evaluate_cycle rs cart) cart)
  = [].
Proof.
  intros H. apply settled; [apply items_after_cycle|].
  now apply shouldHave_ext.
Qed.

End OneCart.

End NextCycle.

(** ** When the rules answer the same after the calls *)

Section Stable.
Import Storefront CartAPI.
Variable catalog : N -> Variant.

Lemma productQuantity_manual (target : string) (c1 c2 : Cart) :
  manualLines (items c1) = manualLines (items c2) ->
  productQuantity target c1 = productQuantity target c2.
Proof.
  destruct c1 as [t1 l1 p1], c2 as [t2 l2 p2]. simpl. intros E.
  rewrite (storefront_productQuantity_filter target l1 t1 p1).
  rewrite (storefront_productQuantity_filter target l2 t2 p2).
  fold (manualLines l1). fold (manualLines l2). now rewrite E.
Qed.

Lemma conditionPasses_manual (cond : RuleCondition) (c1 c2 : Cart) :
  manualLines (items c1) = manualLines (items c2) ->
  total_price c1 = total_price c2
  \/ (forall v, cond <> cart_total_gte v) ->
  conditionPasses cond c1 = conditionPasses cond c2.
Proof.
  intros E H. destruct cond; try reflexivity.
  - simpl. now rewrite (productQuantity_manual _ c1 c2 E).
  - destruct H as [H|H]; [|now elim (H value)].
    simpl. now rewrite H.
Qed.

Lemma forallb_agree {A : Type} (f g : A -> bool) (l : list A) :
  (forall x, In x l -> f x = g x) -> forallb f l = forallb g l.
Proof.
  induction l as [|x l IH]; intros H; [reflexivity|].
  simpl. rewrite (H x) by now left. f_equal. apply IH.
  intros y Hy. apply H. now right.
Qed.

Lemma evaluateRule_manual (r : AutoAddRule) (c1 c2 : Cart) :
  manualLines (items c1) = manualLines (items c2) ->
  total_price c1 = total_price c2
  \/ (forall v, ~ In (cart_total_gte v) (conditions r)) ->
  evaluateRule r c1 = evaluateRule r c2.
Proof.
  intros E H. unfold evaluateRule.
  destruct (conditions r) as [|c cs] eqn:Ec; [reflexivity|].
  apply forallb_agree. intros cond Hin.
  apply conditionPasses_manual; [exact E|].
  destruct H as [H|H]; [now left|right].
  intros v ->. now apply (H v).
Qed.

Lemma linesTotal_app (l1 l2 : list CartItem) :
  linesTotal (l1 ++ l2) = linesTotal l1 + linesTotal l2.
Proof. induction l1 as [|x l1 IH]; simpl; [reflexivity | lia]. Qed.

Lemma total_applyIntents (sent : list Intent) (cart : Cart) :
  total_price (applyIntents catalog sent cart)
  = total_price cart - linesTotal (items cart)
    + linesTotal (items (applyIntents catalog sent cart)).
Proof.
  unfold applyIntents. revert cart.
  induction sent as [|i sent IH]; intros cart; simpl; [lia|].
  rewrite IH. unfold applyIntent, withItems. simpl. lia.
Qed.

Lemma linesTotal_kept (W : JS.Map AutoAddRule) (l : list CartItem) :
  (forall item, In item l -> isAutoAdded item = true -> price item = 0) ->
  linesTotal (kept W l) = linesTotal l.
Proof.
  revert W. induction l as [|x l IH]; intros W H; [reflexivity|].
  assert (H' : forall item, In item l -> isAutoAdded item = true ->
                            price item = 0)
    by (intros item Hin; apply H; now right).
  cbn [kept]. destruct (isAutoAdded x) eqn:Ea.
  - assert (Hx : price x = 0) by (apply H; [now left | exact Ea]).
    destruct (JS.has (variantGidOf x) W); simpl;
      rewrite IH by exact H'; rewrite Hx; lia.
  - simpl. now rewrite IH.
Qed.

Lemma linesTotal_added (l : list CartItem) (gids : list string) :
  (forall g n, In g gids ->
     JS.parseInt (JS.replace_with_empty VARIANT_GID g) = Some n ->
     unit_price (catalog n) = 0) ->
  linesTotal (added catalog l gids) = 0.
Proof.
  induction gids as [|g gids IH]; intros H; [reflexivity|].
  rewrite added_cons, linesTotal_app, IH
    by (intros g' n Hin; apply H; now right).
  destruct (inCart l g); [reflexivity|].
  destruct (JS.parseInt _) as [n|] eqn:E; [|reflexivity].
  simpl. rewrite (H g n); [lia | now left | exact E].
Qed.

End Stable.

(** ** [processCart] and the cycle *)

Lemma processCart_busy (st : Storefront.State)
  (fetched : option Storefront.Cart) :
  Storefront.processing st = true ->
  Storefront.processCart st fetched = (st, []).
Proof. intros H. unfold Storefront.processCart. now rewrite H. Qed.

(** On a cart whose token is not the last one seen, [processCart] sends
    the calls of the cycle, and forgets the token when it sent any. *)
Lemma processCart_runs_cycle (st : Storefront.State)
  (cart : Storefront.Cart) :
  Storefront.processing st = false ->
  (forall t, Storefront.lastCartToken st = Some t ->
     Storefront.token cart <> t) ->
  snd (Storefront.processCart st (Some cart))
  = Storefront.evaluate_cycle (Storefront.rules st) cart
  /\ Storefront.processing (fst (Storefront.processCart st (Some cart)))
     = false.
Proof.
  intros Hp Ht. unfold Storefront.processCart. rewrite Hp.
  destruct (Storefront.lastCartToken st) as [t|] eqn:E.
  - destruct (String.eqb_spec (Storefront.token cart) t) as [e|ne].
    + now elim (Ht t).
    + split; reflexivity.
  - split; reflexivity.
Qed.

(** With a target that is the bare number of the variant, the gift the
    cycle adds is not recognised by the next cycle, which removes it, and
    the one after adds it again. *)
Lemma bare_variant_id_oscillates :
  let c0 := Examples.cart [Examples.bought] in
  let run c :=
    CartAPI.applyIntents Examples.free_catalog
      (Storefront.evaluate_cycle [Examples.bare_target] c) c in
  Storefront.evaluate_cycle [Examples.bare_target] c0
  = [Storefront.Add "11" 1]
  /\ Storefront.evaluate_cycle [Examples.bare_target] (run c0)
     = [Storefront.Remove "11:_auto_added"]
  /\ Storefront.evaluate_cycle [Examples.bare_target] (run (run c0))
     = [Storefront.Add "11" 1].
Proof. repeat split. Qed.

(** C1, as stated, fails: with gifts that have a price, the gift the
    cycle adds at a total of 50.00 lifts the total to 60.00, past the
    threshold of a second rule, and the next cycle adds the gift of that
    rule. *)
Lemma priced_gift_triggers_next_rule :
  Storefront.evaluate_cycle [Examples.from_fifty; Examples.from_fifty_five]
    (Examples.cart [Examples.bought])
  = [Storefront.Add Examples.variantA 1]
  /\ Storefront.evaluate_cycle
       [Examples.from_fifty; Examples.from_fifty_five]
       (CartAPI.applyIntents Examples.catalog
          (Storefront.evaluate_cycle
             [Examples.from_fifty; Examples.from_fifty_five]
             (Examples.cart [Examples.bought]))
          (Examples.cart [Examples.bought]))
     = [Storefront.Add Examples.variantB 1]
  /\ Storefront.evaluate_cycle
       [Examples.from_fifty; Examples.from_fifty_five]
       (CartAPI.applyIntents Examples.catalog
          (Storefront.evaluate_cycle
             [Examples.from_fifty; Examples.from_fifty_five]
             (Examples.cart [Examples.bought]))
          (Examples.cart [Examples.bought]))
     <> [].
Proof. repeat split. discriminate. Qed.

(** C1, amended: take a cart whose line keys are distinct and rules whose
    targets are variant ids of the form
    [gid://shopify/ProductVariant/<number>]; run the cycle and apply all
    its calls.  If every rule answers on the new cart as it did on the
    old one, the cycle run again with the same rules sends nothing.  Every
    rule does so when no rule has a [cart_total_gte] condition, and when
    the auto-added lines of the cart and the gifts of the rules cost
    nothing. *)
Theorem cycle_idempotent :
  forall (catalog : N -> CartAPI.Variant) (rs : list AutoAddRule)
         (cart : Storefront.Cart),
    NoDup (map Storefront.key (Storefront.items cart)) ->
    (forall r, In r rs -> CartAPI.canonical (addVariantId (action r))) ->
    let cart' :=
      CartAPI.applyIntents catalog (Storefront.evaluate_cycle rs cart) cart in
    (forall r, In r rs ->
       Storefront.evaluateRule r cart' = Storefront.evaluateRule r cart)
    \/ (forall r v, In r rs -> ~ In (cart_total_gte v) (conditions r))
    \/ ((forall item, In item (Storefront.items cart) ->
           Storefront.isAutoAdded item = true -> Storefront.price item = 0)
        /\ (forall r n, In r rs ->
              addVariantId (action r)
              = (Storefront.VARIANT_GID ++ JS.String_of n)%string ->
              CartAPI.unit_price (catalog n) = 0)) ->
    Storefront.evaluate_cycle rs cart' = [].
Proof.
  intros catalog rs cart Hd Hc cart' H.
  apply cycle_settles; [exact Hd | exact Hc|].
  fold cart'.
  assert (Hitems := items_after_cycle catalog rs cart Hd Hc).
  fold cart' in Hitems.
  assert (Hm : filter (fun item => negb (Storefront.isAutoAdded item))
                 (Storefront.items cart')
               = filter (fun item => negb (Storefront.isAutoAdded item))
                   (Storefront.items cart)).
  { rewrite Hitems, filter_app, kept_filter_manual, added_manual_none.
    apply app_nil_r. }
  destruct H as [H|[H|[Hfree Hgift]]]; [exact H| |].
  - intros r Hin. apply evaluateRule_manual; [exact Hm|].
    right. intros v. now apply H.
  - intros r Hin. apply evaluateRule_manual; [exact Hm|]. left.
    unfold cart'. rewrite total_applyIntents. fold cart'.
    rewrite Hitems, linesTotal_app, linesTotal_kept by exact Hfree.
    rewrite linesTotal_added; [lia|].
    intros g n Hg Hn.
    apply checkAutoAdded_remaining in Hg. destruct Hg as [Hg _].
    apply shouldHave_targets in Hg. destruct Hg as [r' [Hr' <-]].
    destruct (Hc r' Hr') as [m Em]. rewrite Em in Hn.
    rewrite replace_prefixed, parseInt_String_of in Hn.
    injection Hn as <-. now apply (Hgift r').
Qed.

Lemma cycle_idempotent_witness :
  Storefront.evaluate_cycle [Examples.from_fifty; Examples.from_fifty_five]
    (CartAPI.applyIntents Examples.free_catalog
       (Storefront.evaluate_cycle
          [Examples.from_fifty; Examples.from_fifty_five]
          (Examples.cart [Examples.bought; Examples.stale]))
       (Examples.cart [Examples.bought; Examples.stale]))
  = [].
Proof.
  apply (cycle_idempotent Examples.free_catalog
           [Examples.from_fifty; Examples.from_fifty_five]
           (Examples.cart [Examples.bought; Examples.stale])).
  - simpl. repeat constructor; simpl; intuition discriminate.
  - intros r [<-|[<-|[]]]; [exists 11%N | exists 12%N]; reflexivity.
  - right. right. split.
    + intros item [<-|[<-|[]]] Ha; [discriminate | reflexivity].
    + intros r n _ _. reflexivity.
Defined.

(** * Further properties *)

(** ** The cart transform: the anchor line *)

Section TransformMore.
Import Transform.

Lemma find_first {A : Type} (f : A -> bool) (before after : list A) (x : A) :
  (forall y, In y before -> f y = false) -> f x = true ->
  find f (before ++ x :: after) = Some x.
Proof.
  induction before as [|y before IH]; intros Hb Hx; simpl.
  - now rewrite Hx.
  - rewrite (Hb y) by now left. apply IH; [|exact Hx].
    intros z Hz. apply Hb. now right.
Qed.

End TransformMore.

(** X1: [pickAnchorLineId] answers [null] exactly for a cart without
    lines; what it answers otherwise is the id of a line of the cart, and
    it is the id of the first [ProductVariant] line whenever there is one,
    whatever lines stand before it. *)
Theorem pickAnchorLineId_prefers_variants :
  forall input : Transform.CartTransformRunInput,
    (Transform.pickAnchorLineId input = None
     <-> Transform.lines input = [])
    /\ (forall i, Transform.pickAnchorLineId input = Some i ->
          exists line,
            In line (Transform.lines input) /\ Transform.id line = i)
    /\ (forall before line after,
          Transform.lines input = before ++ line :: after ->
          Transform.isProductVariant line = true ->
          (forall l, In l before -> Transform.isProductVariant l = false) ->
          Transform.pickAnchorLineId input = Some (Transform.id line)).
Proof.
  intros input. unfold Transform.pickAnchorLineId. split; [|split].
  - destruct (find _ (Transform.lines input)) as [l|] eqn:F.
    + apply find_some in F. destruct F as [Hin _].
      split; [discriminate|]. intros E. rewrite E in Hin. destruct Hin.
    + destruct (Transform.lines input); split; congruence.
  - intros i. destruct (find _ (Transform.lines input)) as [l|] eqn:F.
    + apply find_some in F. destruct F as [Hin _].
      intros [= <-]. now exists l.
    + destruct (Transform.lines input) as [|l ls]; [discriminate|].
      intros [= <-]. exists l. split; [now left | reflexivity].
  - intros before line after E Hv Hb. rewrite E.
    now rewrite (find_first _ before after line Hb Hv).
Qed.

Lemma pickAnchorLineId_prefers_variants_witness :
  Transform.pickAnchorLineId Samples.indexed_input
  = Some "gid://shopify/CartLine/2".
Proof.
  apply (proj2 (proj2 (pickAnchorLineId_prefers_variants
                         Samples.indexed_input))
           [Samples.custom_line "gid://shopify/CartLine/1" 1]
           Samples.shirt [Samples.mug]).
  - reflexivity.
  - reflexivity.
  - intros l [<-|[]]. reflexivity.
Defined.

(** ** The cart transform: the collection index *)

Section MapLookup.
Context {V : Type}.
Implicit Types (m : JS.Map V) (k : string) (v : V).

Lemma get_set_same k v m : JS.get k (JS.set k v m) = Some v.
Proof.
  induction m as [|[k0 v0] m IH]; simpl.
  - now rewrite String.eqb_refl.
  - destruct (String.eqb_spec k0 k) as [->|ne]; simpl.
    + now rewrite String.eqb_refl.
    + destruct (String.eqb_spec k0 k); [contradiction | exact IH].
Qed.

Lemma get_set_other k k' v m :
  k <> k' -> JS.get k' (JS.set k v m) = JS.get k' m.
Proof.
  intros ne. induction m as [|[k0 v0] m IH]; simpl.
  - destruct (String.eqb_spec k k'); [contradiction | reflexivity].
  - destruct (String.eqb_spec k0 k) as [->|ne0]; simpl.
    + destruct (String.eqb_spec k k'); [contradiction | reflexivity].
    + destruct (String.eqb_spec k0 k'); [reflexivity | exact IH].
Qed.

Lemma get_In k v m : JS.get k m = Some v -> In (k, v) m.
Proof.
  induction m as [|[k0 v0] m IH]; simpl; [discriminate|].
  destruct (String.eqb_spec k0 k) as [->|ne].
  - intros [= ->]. now left.
  - intros H. right. now apply IH.
Qed.

Lemma get_NoDup k v m :
  NoDup (JS.keys m) -> In (k, v) m -> JS.get k m = Some v.
Proof.
  induction m as [|[k0 v0] m IH]; simpl; intros Hd Hin; [tauto|].
  inversion Hd as [|? ? Hn Hd']; subst.
  destruct Hin as [[= -> ->]|Hin].
  - now rewrite String.eqb_refl.
  - destruct (String.eqb_spec k0 k) as [->|ne]; [|now apply IH].
    elim Hn. unfold JS.keys. apply in_map_iff. now exists (k, v).
Qed.

Lemma get_None_keys k m : JS.get k m = None <-> ~ In k (JS.keys m).
Proof.
  induction m as [|[k0 v0] m IH]; simpl; [tauto|].
  destruct (String.eqb_spec k0 k) as [->|ne].
  - split; [discriminate | tauto].
  - rewrite IH. tauto.
Qed.

End MapLookup.

Section IndexLookup.
Import Transform.

Lemma parse_fold (parsed : list (string * list string))
  (m0 : JS.Map (list string)) (pid : string) (cs : list string) :
  NoDup (map fst parsed) ->
  JS.get pid
    (fold_left
       (fun (map : JS.Map (list string)) (entry : string * list string) =>
          let '(productId, list) := entry in
          match list with
          | [] => map
          | _ :: _ => JS.set productId list map
          end)
       parsed m0) = Some cs
  <-> (In (pid, cs) parsed /\ cs <> [])
      \/ (JS.get pid m0 = Some cs
          /\ forall cs', In (pid, cs') parsed -> cs' = []).
Proof.
  revert m0. induction parsed as [|[p l] rest IH]; intros m0 Hd.
  - simpl. split; [intros H; right; split; [exact H|tauto] | tauto].
  - inversion Hd as [|? ? Hn Hd']; subst. cbn [fold_left].
    rewrite (IH _ Hd'). clear IH.
    assert (Hp : forall cs', ~ In (p, cs') rest).
    { intros cs' Hin. apply Hn. apply in_map_iff. now exists (p, cs'). }
    destruct (String.eqb_spec p pid) as [->|ne].
    + destruct l as [|c l].
      * split.
        -- intros [[Hin Hne]|[Hg Hall]]; [now elim (Hp cs)|].
           right. split; [exact Hg|].
           intros cs' [[= <-]|Hin]; [reflexivity | now elim (Hp cs')].
        -- intros [[[[= <-]|Hin] Hne]|[Hg Hall]].
           ++ congruence.
           ++ now elim (Hp cs).
           ++ right. split; [exact Hg|].
              intros cs' Hin. now elim (Hp cs').
      * rewrite get_set_same. split.
        -- intros [[Hin Hne]|[[= <-] Hall]]; [now elim (Hp cs)|].
           left. split; [now left | discriminate].
        -- intros [[[[= <-]|Hin] Hne]|[Hg Hall]].
           ++ right. split; [reflexivity|].
              intros cs' Hin. now elim (Hp cs').
           ++ now elim (Hp cs).
           ++ specialize (Hall (c :: l) (or_introl eq_refl)). discriminate.
    + assert (E : JS.get pid
                    match l with
                    | [] => m0
                    | _ :: _ => JS.set p l m0
                    end = JS.get pid m0).
      { destruct l; [reflexivity|]. now apply get_set_other. }
      rewrite E. split.
      * intros [[Hin Hne]|[Hg Hall]].
        -- left. split; [now right | exact Hne].
        -- right. split; [exact Hg|].
           intros cs' [[= E1 E2]|Hin]; [congruence | now apply Hall].
      * intros [[[[= E1 E2]|Hin] Hne]|[Hg Hall]].
        -- congruence.
        -- left. tauto.
        -- right. split; [exact Hg|].
           intros cs' Hin. apply Hall. now right.
Qed.

Lemma parseCollectionIndex_get (input : CartTransformRunInput)
  (parsed : list (string * list string)) (pid : string)
  (cs : list string) :
  collectionIndex input = Some parsed ->
  NoDup (map fst parsed) ->
  JS.get pid (parseCollectionIndex input) = Some cs
  <-> In (pid, cs) parsed /\ cs <> [].
Proof.
  intros E Hd. unfold parseCollectionIndex. rewrite E.
  rewrite (parse_fold parsed [] pid cs Hd). simpl.
  split; [intros [H|[H _]]; [exact H | discriminate] | tauto].
Qed.

End IndexLookup.

(** X2: the map [parseCollectionIndex] builds from an index whose product
    ids are distinct answers, for a product, the list the index gives it
    when that list is not empty, and has no entry for a product whose list
    is empty or that the index does not name; without an index the map is
    empty. *)
Theorem parseCollectionIndex_lookup :
  forall input : Transform.CartTransformRunInput,
    (Transform.collectionIndex input = None ->
     Transform.parseCollectionIndex input = [])
    /\ (forall parsed,
          Transform.collectionIndex input = Some parsed ->
          NoDup (map fst parsed) ->
          forall pid,
            (forall cs,
                JS.get pid (Transform.parseCollectionIndex input) = Some cs
                <-> In (pid, cs) parsed /\ cs <> [])
            /\ ((forall cs, In (pid, cs) parsed -> cs = []) ->
                JS.get pid (Transform.parseCollectionIndex input) = None)).
Proof.
  intros input. split.
  - intros E. unfold Transform.parseCollectionIndex. now rewrite E.
  - intros parsed E Hd pid. split.
    + intros cs. now apply parseCollectionIndex_get.
    + intros Hall.
      destruct (JS.get pid (Transform.parseCollectionIndex input))
        as [cs|] eqn:G; [|reflexivity].
      apply (parseCollectionIndex_get input parsed pid cs E Hd) in G.
      destruct G as [Hin Hne]. now elim Hne; apply Hall.
Qed.

Lemma parseCollectionIndex_lookup_witness :
  JS.get "gid://shopify/Product/71"
    (Transform.parseCollectionIndex Samples.indexed_input)
  = Some [Samples.summer; Samples.winter]
  /\ JS.get "gid://shopify/Product/72"
       (Transform.parseCollectionIndex Samples.indexed_input)
     = None.
Proof.
  assert (Hd : NoDup (map fst Samples.parsed_index)).
  { simpl. repeat constructor; simpl; intuition discriminate. }
  destruct (proj2 (parseCollectionIndex_lookup Samples.indexed_input)
              Samples.parsed_index eq_refl Hd "gid://shopify/Product/71")
    as [H1 _].
  destruct (proj2 (parseCollectionIndex_lookup Samples.indexed_input)
              Samples.parsed_index eq_refl Hd "gid://shopify/Product/72")
    as [_ H2].
  split.
  - apply H1. split; [simpl; tauto | discriminate].
  - apply H2. intros cs [[= ]|[[= <-]|[]]]. reflexivity.
Defined.

(** ** The cart transform: conditions *)

Section TransformConditions.
Import Transform.

Lemma forallb_incl {A : Type} (f : A -> bool) (l1 l2 : list A) :
  (forall x, In x l1 -> In x l2) ->
  forallb f l2 = true -> forallb f l1 = true.
Proof.
  intros H. rewrite !forallb_forall. auto.
Qed.

Lemma forallb_same_members {A : Type} (f : A -> bool) (l1 l2 : list A) :
  (forall x, In x l1 <-> In x l2) -> forallb f l1 = forallb f l2.
Proof.
  intros H.
  destruct (forallb f l1) eqn:E1, (forallb f l2) eqn:E2; try reflexivity.
  - rewrite (forallb_incl f l2 l1) in E2; [discriminate | apply H | exact E1].
  - rewrite (forallb_incl f l1 l2) in E1; [discriminate | apply H | exact E2].
Qed.

Lemma cartQuantity_from (l : list CartLine) (a : Z) :
  fold_left (fun sum l => sum + quantity l) l a
  = a + fold_left (fun sum l => sum + quantity l) l 0.
Proof.
  revert a. induction l as [|x l IH]; intros a; simpl; [lia|].
  rewrite (IH (a + quantity x)), (IH (quantity x)). lia.
Qed.

Lemma cartQuantity_app (l1 l2 : list CartLine) rs idx :
  cartQuantity {| lines := l1 ++ l2; rules := rs; collectionIndex := idx |}
  = cartQuantity {| lines := l1; rules := rs; collectionIndex := idx |}
    + cartQuantity {| lines := l2; rules := rs; collectionIndex := idx |}.
Proof.
  unfold cartQuantity. simpl. rewrite fold_left_app.
  apply cartQuantity_from.
Qed.

Lemma cartQuantity_nonneg (l : list CartLine) rs idx :
  (forall x, In x l -> 0 <= quantity x) ->
  0 <= cartQuantity {| lines := l; rules := rs; collectionIndex := idx |}.
Proof.
  induction l as [|x l IH]; intros H; [unfold cartQuantity; simpl; lia|].
  change (x :: l) with ([x] ++ l). rewrite cartQuantity_app.
  assert (0 <= quantity x) by (apply H; now left).
  assert (0 <= cartQuantity
                 {| lines := l; rules := rs; collectionIndex := idx |})
    by (apply IH; intros y Hy; apply H; now right).
  unfold cartQuantity at 1. simpl. lia.
Qed.



Lemma mem_In (x : string) (l : list string) : mem x l = true <-> In x l.
Proof.
  unfold mem. rewrite existsb_exists. split.
  - intros [y [Hy E]]. apply String.eqb_eq in E. now subst.
  - intros H. exists x. split; [exact H | apply String.eqb_refl].
Qed.

Lemma truthy_nonempty (s : string) : JS.truthy s = true <-> s <> "".
Proof.
  unfold JS.truthy. destruct (String.eqb_spec s ""); simpl; split;
    congruence.
Qed.

End TransformConditions.

(** X3: [ruleApplies] reads the conditions of a rule as a set: a rule
    applies to every cart to which a rule with more conditions (and the
    same [active] flag) applies, and two rules with the same conditions,
    in whatever order and however often repeated, apply to the same
    carts. *)
Theorem ruleApplies_conditions_as_a_set :
  forall (r1 r2 : AutoAddRule) (input : Transform.CartTransformRunInput),
    active r1 = active r2 ->
    ((forall c, In c (conditions r1) -> In c (conditions r2)) ->
     Transform.ruleApplies r2 input = true ->
     Transform.ruleApplies r1 input = true)
    /\ ((forall c, In c (conditions r1) <-> In c (conditions r2)) ->
        Transform.ruleApplies r1 input = Transform.ruleApplies r2 input).
Proof.
  intros r1 r2 input Ha. unfold Transform.ruleApplies. rewrite Ha.
  destruct (active r2); simpl; split; auto.
  - intros H. now apply forallb_incl.
  - intros H. now apply forallb_same_members.
Qed.

Lemma ruleApplies_conditions_as_a_set_witness :
  Transform.ruleApplies Samples.quantity_then_product
    (Examples.input_with_quantity 5)
  = Transform.ruleApplies Samples.product_then_quantity
      (Examples.input_with_quantity 5).
Proof.
  apply (proj2 (ruleApplies_conditions_as_a_set
                  Samples.quantity_then_product
                  Samples.product_then_quantity
                  (Examples.input_with_quantity 5) eq_refl)).
  intros c. simpl. tauto.
Defined.


(** X5: [includes_any_variants] holds exactly when one of its variant ids,
    an empty id apart, is in the cart as [variantInCart] finds it; with no
    variant id it never holds. *)
Theorem includesAnyVariant_by_variantInCart :
  forall (input : Transform.CartTransformRunInput) (variantIds : list string),
    (Transform.includesAnyVariant input variantIds = true
     <-> exists v,
           In v variantIds /\ v <> ""
           /\ Transform.variantInCart input v = true)
    /\ Transform.includesAnyVariant input [] = false.
Proof.
  intros input ids. split.
  - unfold Transform.includesAnyVariant, Transform.variantInCart.
    rewrite existsb_exists. split.
    + intros [line [Hin H]].
      destruct (Transform.merchandise line) as [vid pid|] eqn:M;
        [|discriminate].
      apply andb_true_iff in H. destruct H as [Ht Hm].
      exists vid. split; [now apply mem_In|].
      split; [now apply truthy_nonempty|].
      apply existsb_exists. exists line. split; [exact Hin|].
      rewrite M. apply String.eqb_refl.
    + intros [v [Hv [Hne H]]]. apply existsb_exists in H.
      destruct H as [line [Hin H]]. exists line. split; [exact Hin|].
      destruct (Transform.merchandise line) as [vid pid|]; [|discriminate].
      apply String.eqb_eq in H. subst vid.
      apply andb_true_iff. split; [now apply truthy_nonempty|].
      now apply mem_In.
  - unfold Transform.includesAnyVariant.
    induction (Transform.lines input) as [|line l IH]; [reflexivity|].
    simpl. destruct (Transform.merchandise line); simpl;
      rewrite ?andb_false_r; exact IH.
Qed.

(** X6: [includes_any_collections] holds exactly when a line of the cart
    is a variant of a product that the collection index puts in one of
    the collections of the condition; it fails on every cart when there
    is no index. *)
Theorem includes_any_collections_needs_index :
  forall (input : Transform.CartTransformRunInput)
         (collectionIds : list string),
    (Transform.conditionHolds (includes_any_collections collectionIds) input
     = true
     <-> exists line pid colls c,
           In line (Transform.lines input)
           /\ Transform.productIdOf line = Some pid /\ pid <> ""
           /\ JS.get pid (Transform.parseCollectionIndex input) = Some colls
           /\ In c colls /\ In c collectionIds)
    /\ (Transform.collectionIndex input = None ->
        Transform.conditionHolds (includes_any_collections collectionIds)
          input = false).
Proof.
  intros input ids.
  assert (G : Transform.conditionHolds (includes_any_collections ids) input
              = true
              <-> exists line pid colls c,
                    In line (Transform.lines input)
                    /\ Transform.productIdOf line = Some pid /\ pid <> ""
                    /\ JS.get pid (Transform.parseCollectionIndex input)
                       = Some colls
                    /\ In c colls /\ In c ids).
  { unfold Transform.conditionHolds.
    destruct (existsb _ (Transform.lines input)) eqn:E; simpl.
    - split; [intros _|reflexivity].
      apply existsb_exists in E. destruct E as [line [Hin H]].
      destruct (Transform.productIdOf line) as [pid|] eqn:P; [|discriminate].
      destruct (JS.truthy pid) eqn:T; simpl in H; [|discriminate].
      destruct (JS.get pid (Transform.parseCollectionIndex input))
        as [colls|] eqn:Gt; [|discriminate].
      apply existsb_exists in H. destruct H as [c [Hc Hm]].
      exists line, pid, colls, c. repeat split; auto.
      + now apply truthy_nonempty.
      + now apply mem_In.
    - split; [discriminate|].
      intros [line [pid [colls [c [Hin [P [Hne [Gt [Hc Hm]]]]]]]]].
      rewrite <- E. apply existsb_exists. exists line.
      split; [exact Hin|]. rewrite P.
      apply truthy_nonempty in Hne. rewrite Hne. simpl. rewrite Gt.
      apply existsb_exists. exists c. split; [exact Hc|]. now apply mem_In. }
  split; [exact G|].
  intros Hnone.
  destruct (Transform.conditionHolds (includes_any_collections ids) input)
    eqn:E; [|reflexivity].
  destruct (proj1 G eq_refl) as [line [pid [colls [c [_ [_ [_ [Gt _]]]]]]]].
  unfold Transform.parseCollectionIndex in Gt. rewrite Hnone in Gt.
  discriminate.
Qed.

Lemma includes_any_collections_needs_index_witness :
  Transform.conditionHolds (includes_any_collections [Samples.summer])
    (Examples.input Samples.mixed_lines) = false.
Proof.
  apply (proj2 (includes_any_collections_needs_index
                  (Examples.input Samples.mixed_lines) [Samples.summer])).
  reflexivity.
Defined.

(** X7: the quantity [cart_quantity_at_least] and [cart_quantity_in_range]
    compare is the sum of the quantities of all the lines.
    [cart_quantity_at_least] holds exactly from its threshold on, as
    [cart_quantity_in_range] without [max] does, and lines added to the
    cart with quantities that are not negative never make it fail. *)
Theorem cart_quantity_at_least_grows :
  forall (l extra : list Transform.CartLine) rs idx (threshold : Z),
    let input l :=
      {| Transform.lines := l; Transform.rules := rs;
         Transform.collectionIndex := idx |} in
    Transform.cartQuantity (input (l ++ extra))
    = Transform.cartQuantity (input l) + Transform.cartQuantity (input extra)
    /\ (Transform.conditionHolds (cart_quantity_at_least threshold) (input l)
        = true <-> threshold <= Transform.cartQuantity (input l))
    /\ Transform.conditionHolds (cart_quantity_at_least threshold) (input l)
       = Transform.conditionHolds (cart_quantity_in_range threshold None)
           (input l)
    /\ ((forall x, In x extra -> 0 <= Transform.quantity x) ->
        Transform.conditionHolds (cart_quantity_at_least threshold) (input l)
        = true ->
        Transform.conditionHolds (cart_quantity_at_least threshold)
          (input (l ++ extra)) = true).
Proof.
  intros l extra rs idx threshold input.
  assert (A := cartQuantity_app l extra rs idx).
  assert (H : forall l',
             Transform.conditionHolds (cart_quantity_at_least threshold)
               (input l') = true
             <-> threshold <= Transform.cartQuantity (input l')).
  { intros l'. unfold Transform.conditionHolds.
    destruct (Z.ltb_spec (Transform.cartQuantity (input l')) threshold);
      split; try discriminate; try lia; auto. }
  split; [exact A|]. split; [apply H|]. split; [reflexivity|].
  intros Hx Hl. apply H. apply H in Hl. unfold input. rewrite A.
  assert (N := cartQuantity_nonneg extra rs idx Hx). fold (input l).
  lia.
Qed.

Lemma cart_quantity_at_least_grows_witness :
  Transform.conditionHolds (cart_quantity_at_least 1)
    {| Transform.lines :=
         [Samples.custom_line "gid://shopify/CartLine/1" 1]
           ++ [Samples.shirt; Samples.mug];
       Transform.rules := None; Transform.collectionIndex := None |}
  = true.
Proof.
  apply (proj2 (proj2 (proj2 (cart_quantity_at_least_grows
                                [Samples.custom_line
                                   "gid://shopify/CartLine/1" 1]
                                [Samples.shirt; Samples.mug] None None 1)))).
  - intros x [<-|[<-|[]]]; simpl; lia.
  - reflexivity.
Defined.

(** ** The storefront script: what a cycle sends *)

Section CycleMore.
Import Storefront.

Lemma shouldHave_no_match (rs : list AutoAddRule) (cart : Cart) :
  (forall r, In r rs -> evaluateRule r cart = false) ->
  shouldHave rs cart = [].
Proof.
  intros H. unfold shouldHave.
  assert (G : forall st, fold_left (matchStep cart) rs st = st).
  { induction rs as [|r rs IH]; intros st; [reflexivity|].
    cbn [fold_left]. rewrite matchStep_no_match by (apply H; now left).
    apply IH. intros r' Hr'. apply H. now right. }
  now rewrite G.
Qed.

Lemma checkAutoAdded_nothing_wanted (l : list CartItem) :
  checkAutoAdded l [] = (map (fun item => Remove (key item)) l, []).
Proof.
  induction l as [|x l IH]; [reflexivity|].
  rewrite checkAutoAdded_absent by reflexivity. now rewrite IH.
Qed.

Lemma keys_set_eq {V : Type} (k : string) (v : V) (m : JS.Map V) :
  JS.keys (JS.set k v m)
  = if JS.has k m then JS.keys m else JS.keys m ++ [k].
Proof.
  induction m as [|[k0 v0] m IH]; simpl; [reflexivity|].
  destruct (String.eqb_spec k0 k) as [->|ne]; simpl; [reflexivity|].
  rewrite IH. now destruct (JS.has k m).
Qed.

Lemma keys_delete_eq {V : Type} (k : string) (m : JS.Map V) :
  JS.keys (JS.delete k m)
  = filter (fun k' => negb (k' =? k)%string) (JS.keys m).
Proof.
  induction m as [|[k0 v0] m IH]; simpl; [reflexivity|].
  destruct (String.eqb_spec k0 k) as [->|ne]; simpl; [exact IH|].
  now rewrite IH.
Qed.

Lemma has_same_keys {V : Type} (k : string) (m m' : JS.Map V) :
  JS.keys m = JS.keys m' -> JS.has k m = JS.has k m'.
Proof.
  intros E.
  destruct (JS.has k m) eqn:H, (JS.has k m') eqn:H'; try reflexivity.
  - apply has_keys in H. rewrite E in H. apply has_keys in H. congruence.
  - apply has_keys in H'. rewrite <- E in H'. apply has_keys in H'.
    congruence.
Qed.

(** What the cycle reads of a rule. *)
Lemma evaluateRule_reads_conditions (r r' : AutoAddRule) (cart : Cart) :
  conditions r = conditions r' ->
  evaluateRule r cart = evaluateRule r' cart.
Proof. intros E. unfold evaluateRule. now rewrite E. Qed.

Lemma matchStep_same_keys (cart : Cart) (M M' : JS.Map AutoAddRule)
  (G : JS.StringSet) (r r' : AutoAddRule) :
  JS.keys M = JS.keys M' ->
  conditions r = conditions r' -> group r = group r' ->
  addVariantId (action r) = addVariantId (action r') ->
  JS.keys (fst (matchStep cart (M, G) r))
  = JS.keys (fst (matchStep cart (M', G) r'))
  /\ snd (matchStep cart (M, G) r) = snd (matchStep cart (M', G) r').
Proof.
  intros Ek Ec Eg Et. unfold matchStep.
  rewrite (evaluateRule_reads_conditions r r' cart Ec), Eg, Et.
  assert (Es : JS.keys (JS.set (addVariantId (action r')) r M)
               = JS.keys (JS.set (addVariantId (action r')) r' M')).
  { rewrite !keys_set_eq, (has_same_keys _ M M' Ek). now rewrite Ek. }
  destruct (evaluateRule r' cart); [|now split].
  destruct (group r') as [g|]; [|now split].
  destruct (JS.truthy g); [|now split].
  destruct (JS.set_has g G); now split.
Qed.

Lemma fold_matchStep_same_keys (cart : Cart) (rs rs' : list AutoAddRule) :
  Forall2
    (fun r r' =>
       conditions r = conditions r' /\ group r = group r'
       /\ addVariantId (action r) = addVariantId (action r')) rs rs' ->
  forall M M' G,
    JS.keys M = JS.keys M' ->
    JS.keys (fst (fold_left (matchStep cart) rs (M, G)))
    = JS.keys (fst (fold_left (matchStep cart) rs' (M', G))).
Proof.
  induction 1 as [|r r' rs rs' [Ec [Eg Et]] _ IH]; intros M M' G Ek;
    [exact Ek|].
  cbn [fold_left].
  destruct (matchStep_same_keys cart M M' G r r' Ek Ec Eg Et) as [E1 E2].
  destruct (matchStep cart (M, G) r) as [M1 G1].
  destruct (matchStep cart (M', G) r') as [M1' G1'].
  simpl in E1, E2. subst G1'. now apply IH.
Qed.

Lemma checkAutoAdded_same_keys (l : list CartItem)
  (W W' : JS.Map AutoAddRule) :
  JS.keys W = JS.keys W' ->
  fst (checkAutoAdded l W) = fst (checkAutoAdded l W')
  /\ JS.keys (snd (checkAutoAdded l W))
     = JS.keys (snd (checkAutoAdded l W')).
Proof.
  revert W W'. induction l as [|x l IH]; intros W W' E; [now split|].
  assert (Eh := has_same_keys (variantGidOf x) W W' E).
  destruct (JS.has (variantGidOf x) W') eqn:H.
  - rewrite !checkAutoAdded_present by assumption.
    destruct (IH (JS.delete (variantGidOf x) W)
                (JS.delete (variantGidOf x) W')) as [E1 E2].
    { now rewrite !keys_delete_eq, E. }
    cbn [fst snd]. now rewrite E1, E2.
  - rewrite !checkAutoAdded_absent by assumption.
    destruct (IH W W' E) as [E1 E2]. cbn [fst snd]. now rewrite E1, E2.
Qed.

Lemma addMissing_same_keys (cart : Cart) (W W' : JS.Map AutoAddRule) :
  JS.keys W = JS.keys W' ->
  flat_map (addMissing cart) W = flat_map (addMissing cart) W'.
Proof.
  revert W'. induction W as [|[g r] W IH]; intros [|[g' r'] W'] E;
    try discriminate; [reflexivity|].
  simpl in E. injection E as -> E. cbn [flat_map].
  now rewrite (IH W' E).
Qed.



Lemma add_origin (rs : list AutoAddRule) (cart : Cart) (g : string)
  (q : Z) :
  In (Add g q) (evaluate_cycle rs cart) ->
  exists r,
    In r rs /\ evaluateRule r cart = true /\ addVariantId (action r) = g.
Proof.
  intros H. apply evaluate_cycle_sent in H.
  destruct H as [[item [_ [_ [E|[E _]]]]]|[g' [Hg [E _]]]];
    try discriminate.
  injection E as -> _. unfold shouldHave in Hg.
  apply recorded_keys_origin in Hg.
  destruct Hg as [[]|[a [r [b [-> [Hm [Hk _]]]]]]].
  exists r. split; [apply in_elt|]. now split.
Qed.

End CycleMore.

(** X8: when no rule matches the cart, and so when there is no rule at
    all, the cycle removes every auto-added line, in the order of the
    cart, and sends nothing else. *)
Theorem no_match_removes_every_gift :
  forall (rs : list AutoAddRule) (cart : Storefront.Cart),
    (forall r, In r rs -> Storefront.evaluateRule r cart = false) ->
    Storefront.evaluate_cycle rs cart
    = map (fun item => Storefront.Remove (Storefront.key item))
        (filter Storefront.isAutoAdded (Storefront.items cart)).
Proof.
  intros rs cart H.
  rewrite evaluate_cycle_eq, (shouldHave_no_match rs cart H).
  rewrite checkAutoAdded_nothing_wanted. simpl. apply app_nil_r.
Qed.

Lemma no_match_removes_every_gift_witness :
  Storefront.evaluate_cycle []
    (Examples.cart [Examples.bought; Samples.gift_line; Examples.stale])
  = [Storefront.Remove "11:g1"; Storefront.Remove "13:c"].
Proof.
  apply (no_match_removes_every_gift []
           (Examples.cart
              [Examples.bought; Samples.gift_line; Examples.stale])).
  intros r [].
Defined.

(** X9: of a rule the cycle reads its conditions, its group and the
    variant of its action, and nothing else: rule sets that agree on
    these, rule by rule, make the cycle send the same calls, whatever
    their [active] flags, ids and action quantities are. *)
Theorem cycle_ignores_active_flag :
  forall (rs rs' : list AutoAddRule) (cart : Storefront.Cart),
    Forall2
      (fun r r' =>
         conditions r = conditions r' /\ group r = group r'
         /\ addVariantId (action r) = addVariantId (action r')) rs rs' ->
    Storefront.evaluate_cycle rs cart = Storefront.evaluate_cycle rs' cart.
Proof.
  intros rs rs' cart H. rewrite !evaluate_cycle_eq.
  assert (Ek : JS.keys (Storefront.shouldHave rs cart)
               = JS.keys (Storefront.shouldHave rs' cart)).
  { unfold Storefront.shouldHave.
    now apply fold_matchStep_same_keys. }
  destruct (checkAutoAdded_same_keys
              (filter Storefront.isAutoAdded (Storefront.items cart))
              _ _ Ek) as [E1 E2].
  rewrite E1. f_equal. now apply addMissing_same_keys.
Qed.

Lemma cycle_ignores_active_flag_witness :
  Storefront.evaluate_cycle [Samples.on_total_off]
    (Examples.cart [Examples.bought])
  = Storefront.evaluate_cycle [Examples.on_total]
      (Examples.cart [Examples.bought])
  /\ Storefront.evaluate_cycle [Samples.on_total_off]
       (Examples.cart [Examples.bought])
     = [Storefront.Add Examples.variantA 1].
Proof.
  split; [|reflexivity].
  apply (cycle_ignores_active_flag [Samples.on_total_off]
           [Examples.on_total] (Examples.cart [Examples.bought])).
  repeat constructor.
Defined.



(** X11: the cycle removes every auto-added line whose variant no matching
    rule asks for, and of two auto-added lines of one variant it removes
    the later one, asked for or not. *)
Theorem unwanted_and_duplicate_gifts_removed :
  forall (rs : list AutoAddRule) (cart : Storefront.Cart)
         (before after : list Storefront.CartItem)
         (item : Storefront.CartItem),
    Storefront.items cart = before ++ item :: after ->
    Storefront.isAutoAdded item = true ->
    (~ In (Storefront.variantGidOf item)
         (JS.keys (Storefront.shouldHave rs cart)) ->
     In (Storefront.Remove (Storefront.key item))
       (Storefront.evaluate_cycle rs cart))
    /\ (forall earlier,
          In earlier before -> Storefront.isAutoAdded earlier = true ->
          Storefront.variant_id earlier = Storefront.variant_id item ->
          In (Storefront.Remove (Storefront.key item))
            (Storefront.evaluate_cycle rs cart)).
Proof.
  intros rs cart before after item Hl Ha.
  assert (G : ~ In (Storefront.variantGidOf item)
                  (JS.keys
                     (snd (Storefront.checkAutoAdded
                             (filter Storefront.isAutoAdded before)
                             (Storefront.shouldHave rs cart)))) ->
              In (Storefront.Remove (Storefront.key item))
                (Storefront.evaluate_cycle rs cart)).
  { intros Hn. rewrite evaluate_cycle_eq, Hl, filter_app.
    cbn [filter]. rewrite Ha, checkAutoAdded_app. cbn [fst].
    apply in_or_app. left. apply in_or_app. right.
    rewrite checkAutoAdded_absent by (now apply has_false_keys).
    now left. }
  split.
  - intros Hn. apply G. intros H.
    apply checkAutoAdded_remaining in H. tauto.
  - intros earlier Hin Hae Hv. apply G. intros H.
    apply checkAutoAdded_remaining in H. destruct H as [_ H].
    apply (H earlier); [apply filter_In; auto|].
    unfold Storefront.variantGidOf. now rewrite Hv.
Qed.

Lemma unwanted_and_duplicate_gifts_removed_witness :
  In (Storefront.Remove (Storefront.key Samples.gift_again))
    (Storefront.evaluate_cycle [Examples.on_total]
       (Examples.cart
          [Examples.bought; Samples.gift_line; Samples.gift_again])).
Proof.
  apply (proj2 (unwanted_and_duplicate_gifts_removed [Examples.on_total]
                  (Examples.cart
                     [Examples.bought; Samples.gift_line;
                      Samples.gift_again])
                  [Examples.bought; Samples.gift_line] []
                  Samples.gift_again eq_refl eq_refl)
           Samples.gift_line).
  - simpl. tauto.
  - reflexivity.
  - reflexivity.
Defined.

(** ** The storefront script: the shape of a cycle, the poll, the ids *)

Section StorefrontMore.
Import Storefront.

Lemma evaluateRule_forallb (r : AutoAddRule) (cart : Cart) :
  evaluateRule r cart
  = match conditions r with
    | [] => false
    | _ :: _ =>
        forallb (fun cond => conditionPasses cond cart) (conditions r)
    end.
Proof. unfold evaluateRule. now destruct (conditions r). Qed.

Lemma cart_total_gte_passes (value : Q) (cart : Cart) :
  conditionPasses (cart_total_gte value) cart = true
  <-> (value <= total_price cart # 100)%Q.
Proof.
  unfold conditionPasses, JS.Qlt_bool.
  destruct (Qle_bool value (total_price cart # 100)) eqn:E; simpl.
  - apply Qle_bool_iff in E. tauto.
  - split; [discriminate|]. intros H. apply Qle_bool_iff in H. congruence.
Qed.

Lemma replace_in_numeral (rest : string) (d : Decimal.uint) :
  JS.replace_with_empty (String "g" rest) (NilEmpty.string_of_uint d)
  = NilEmpty.string_of_uint d.
Proof.
  induction d; cbn [NilEmpty.string_of_uint];
    rewrite replace_with_empty_eq; simpl; try reflexivity;
    now rewrite IHd.
Qed.

Lemma replace_in_String_of (rest : string) (n : N) :
  JS.replace_with_empty (String "g" rest) (JS.String_of n)
  = JS.String_of n.
Proof. apply replace_in_numeral. Qed.


Lemma String_of_eqb (a b : N) :
  (JS.String_of a =? JS.String_of b)%string = (a =? b)%N.
Proof.
  destruct (N.eqb_spec a b) as [->|ne]; [apply String.eqb_refl|].
  apply String.eqb_neq. intros E. now apply ne, String_of_inj.
Qed.

End StorefrontMore.

(** X12: when the targets of the rules are variant ids of the form the
    script builds, the calls of a cycle are the removals and quantity
    resets of auto-added lines first and the additions after them, each
    addition being of one unit. *)
Theorem changes_before_additions :
  forall (rs : list AutoAddRule) (cart : Storefront.Cart),
    (forall r, In r rs -> CartAPI.canonical (addVariantId (action r))) ->
    exists changes additions,
      Storefront.evaluate_cycle rs cart = changes ++ additions
      /\ (forall i, In i changes ->
            exists item,
              In item (Storefront.items cart)
              /\ Storefront.isAutoAdded item = true
              /\ (i = Storefront.Remove (Storefront.key item)
                  \/ i = Storefront.SetQuantity (Storefront.key item) 1))
      /\ (forall i, In i additions ->
            exists g,
              i = Storefront.Add g 1
              /\ In g (JS.keys (Storefront.shouldHave rs cart))).
Proof.
  intros rs cart Hc.
  exists (fst (Storefront.checkAutoAdded
                 (filter Storefront.isAutoAdded (Storefront.items cart))
                 (Storefront.shouldHave rs cart))),
         (flat_map (Storefront.addMissing cart) (CartAPI.remaining rs cart)).
  split; [apply evaluate_cycle_eq|]. split.
  - intros i Hi. apply checkAutoAdded_sent in Hi.
    destruct Hi as [item [Hin Hi]]. apply filter_In in Hin.
    exists item. tauto.
  - intros i Hi. apply in_flat_map in Hi. destruct Hi as [[g r] [Hin Hi]].
    assert (Hg : In g (JS.keys (CartAPI.remaining rs cart)))
      by (unfold JS.keys; apply in_map_iff; now exists (g, r)).
    rewrite addMissing_manual in Hi.
    + destruct (CartAPI.inCart (Storefront.items cart) g); [destruct Hi|].
      destruct Hi as [<-|[]]. exists g. split; [reflexivity|].
      unfold CartAPI.remaining in Hg.
      now apply checkAutoAdded_remaining in Hg.
    + intros item Hitem E.
      now apply (remaining_held_by_customer rs cart Hc g).
Qed.

Lemma changes_before_additions_witness :
  exists changes additions,
    Storefront.evaluate_cycle [Examples.from_fifty]
      (Examples.cart [Examples.stale; Examples.bought])
    = changes ++ additions
    /\ (forall i, In i changes ->
          exists item,
            In item
              (Storefront.items
                 (Examples.cart [Examples.stale; Examples.bought]))
            /\ Storefront.isAutoAdded item = true
            /\ (i = Storefront.Remove (Storefront.key item)
                \/ i = Storefront.SetQuantity (Storefront.key item) 1))
    /\ (forall i, In i additions ->
          exists g,
            i = Storefront.Add g 1
            /\ In g (JS.keys
                       (Storefront.shouldHave [Examples.from_fifty]
                          (Examples.cart [Examples.stale; Examples.bought])))).
Proof.
  apply (changes_before_additions [Examples.from_fifty]
           (Examples.cart [Examples.stale; Examples.bought])).
  intros r [<-|[]]. exists 11%N. reflexivity.
Defined.

(** X13: [processCart] keeps the rules and, unless it was found busy,
    leaves the busy flag down.  After a poll that sent nothing, a second
    poll that fetches a cart with the same token is skipped and leaves the
    state as it is; after a poll that sent calls the token is forgotten,
    so the second poll runs the cycle on the cart it fetches. *)
Theorem processCart_polls :
  forall (st : Storefront.State) (cart : Storefront.Cart),
    Storefront.processing st = false ->
    (forall t, Storefront.lastCartToken st = Some t ->
       Storefront.token cart <> t) ->
    let st1 := fst (Storefront.processCart st (Some cart)) in
    Storefront.rules st1 = Storefront.rules st
    /\ Storefront.processing st1 = false
    /\ (Storefront.evaluate_cycle (Storefront.rules st) cart = [] ->
        forall cart',
          Storefront.token cart' = Storefront.token cart ->
          Storefront.processCart st1 (Some cart') = (st1, []))
    /\ (Storefront.evaluate_cycle (Storefront.rules st) cart <> [] ->
        Storefront.lastCartToken st1 = None
        /\ forall cart',
             snd (Storefront.processCart st1 (Some cart'))
             = Storefront.evaluate_cycle (Storefront.rules st) cart').
Proof.
  intros st cart Hp Ht st1.
  assert (E : st1
              = {| Storefront.rules := Storefront.rules st;
                   Storefront.processing := false;
                   Storefront.lastCartToken :=
                     match Storefront.evaluate_cycle
                             (Storefront.rules st) cart with
                     | [] => Some (Storefront.token cart)
                     | _ :: _ => None
                     end |}).
  { unfold st1, Storefront.processCart. rewrite Hp.
    destruct (Storefront.lastCartToken st) as [t|] eqn:L.
    - destruct (String.eqb_spec (Storefront.token cart) t) as [e|ne];
        [now elim (Ht t)|].
      simpl. now destruct (Storefront.evaluate_cycle _ cart).
    - simpl. now destruct (Storefront.evaluate_cycle _ cart). }
  rewrite E. split; [reflexivity|]. split; [reflexivity|]. split.
  - intros H cart' Htok. rewrite H. unfold Storefront.processCart. simpl.
    rewrite Htok, String.eqb_refl. reflexivity.
  - intros H.
    destruct (Storefront.evaluate_cycle (Storefront.rules st) cart);
      [congruence|].
    split; [reflexivity|]. intros cart'. reflexivity.
Qed.

Lemma processCart_polls_witness :
  Storefront.processCart
    (fst (Storefront.processCart (Samples.fresh [Examples.on_total])
            (Some (Examples.cart [Examples.bought; Samples.gift_line]))))
    (Some (Examples.cart [Examples.bought; Samples.gift_line]))
  = (fst (Storefront.processCart (Samples.fresh [Examples.on_total])
            (Some (Examples.cart [Examples.bought; Samples.gift_line]))),
     []).
Proof.
  apply (proj1 (proj2 (proj2 (processCart_polls
                                (Samples.fresh [Examples.on_total])
                                (Examples.cart
                                   [Examples.bought; Samples.gift_line])
                                eq_refl
                                (fun t (H : None = Some t) =>
                                   match H with end))))).
  - reflexivity.
  - reflexivity.
Defined.

(** ** The storefront script: conditions, ids and the marking of gifts *)

Section StorefrontConditions.
Import Storefront.

Lemma productQuantity_from (p : string) (l : list CartItem) (acc : Z) :
  fold_left
    (fun totalQty item =>
       if isAutoAdded item then totalQty
       else if (JS.String_of (product_id item) =? p)%string
            then totalQty + quantity item
            else totalQty) l acc
  = acc
    + fold_right Z.add 0
        (map quantity
           (filter (fun item =>
                      negb (isAutoAdded item)
                      && (JS.String_of (product_id item) =? p)%string) l)).
Proof.
  revert acc. induction l as [|item l IH]; intros acc; simpl; [lia|].
  rewrite IH.
  destruct (isAutoAdded item); simpl; [reflexivity|].
  destruct (JS.String_of (product_id item) =? p)%string; simpl; lia.
Qed.


End StorefrontConditions.

(** X14: [evaluateRule] reads the conditions of a rule as a set, once there
    is one: a rule with at least one condition, all of them among those of
    a rule that matches the cart, matches it too. *)
Theorem evaluateRule_conditions_as_a_set :
  forall (r1 r2 : AutoAddRule) (cart : Storefront.Cart),
    conditions r1 <> [] ->
    incl (conditions r1) (conditions r2) ->
    Storefront.evaluateRule r2 cart = true ->
    Storefront.evaluateRule r1 cart = true.
Proof.
  intros r1 r2 cart Hne Hincl H.
  rewrite evaluateRule_forallb in *.
  destruct (conditions r2) as [|c2 l2] eqn:E2; [discriminate|].
  destruct (conditions r1) as [|c1 l1] eqn:E1; [congruence|].
  apply forallb_forall. intros c Hc.
  rewrite forallb_forall in H. apply H, Hincl, Hc.
Qed.

Lemma evaluateRule_conditions_as_a_set_witness :
  Storefront.evaluateRule Samples.total_then_product
    (Examples.cart [Examples.bought]) = true.
Proof.
  apply (evaluateRule_conditions_as_a_set Samples.total_then_product
           Samples.product_then_total (Examples.cart [Examples.bought])).
  - discriminate.
  - intros c [<-|[<-|[]]]; simpl; tauto.
  - reflexivity.
Defined.

(** X15: a rule whose conditions are all of the kind [cart_total_gte]
    matches exactly when it has a condition and the total of the cart, in
    cents over 100, reaches each of the values; so a higher total never
    takes the match away. *)
Theorem total_rule_threshold :
  forall (r : AutoAddRule) (cart : Storefront.Cart),
    (forall c, In c (conditions r) -> exists v, c = cart_total_gte v) ->
    (Storefront.evaluateRule r cart = true
     <-> conditions r <> []
         /\ forall v, In (cart_total_gte v) (conditions r) ->
              (v <= Storefront.total_price cart # 100)%Q)
    /\ (forall cart',
          Storefront.total_price cart <= Storefront.total_price cart' ->
          Storefront.evaluateRule r cart = true ->
          Storefront.evaluateRule r cart' = true).
Proof.
  intros r cart Hk.
  assert (Hiff : forall cart0,
             Storefront.evaluateRule r cart0 = true
             <-> conditions r <> []
                 /\ forall v, In (cart_total_gte v) (conditions r) ->
                      (v <= Storefront.total_price cart0 # 100)%Q).
  { intros cart0. rewrite evaluateRule_forallb.
    destruct (conditions r) as [|c l] eqn:E.
    - split; [discriminate|]. intros [H _]. congruence.
    - rewrite forallb_forall. split.
      + intros H. split; [discriminate|]. intros v Hv.
        apply cart_total_gte_passes, H, Hv.
      + intros [_ H] c0 Hc0. destruct (Hk c0 Hc0) as [v ->].
        apply cart_total_gte_passes, H, Hc0. }
  split; [apply Hiff|].
  intros cart' Hle H. apply Hiff. apply Hiff in H. destruct H as [Hne H].
  split; [exact Hne|]. intros v Hv.
  apply Qle_trans with (Storefront.total_price cart # 100)%Q; [now apply H|].
  unfold Qle. simpl. lia.
Qed.

Lemma total_rule_threshold_witness :
  (Storefront.evaluateRule Examples.from_fifty
     (Examples.cart [Examples.bought]) = true
   <-> conditions Examples.from_fifty <> []
       /\ forall v, In (cart_total_gte v) (conditions Examples.from_fifty) ->
            (v <= Storefront.total_price (Examples.cart [Examples.bought])
                  # 100)%Q)
  /\ (forall cart',
        Storefront.total_price (Examples.cart [Examples.bought])
        <= Storefront.total_price cart' ->
        Storefront.evaluateRule Examples.from_fifty
          (Examples.cart [Examples.bought]) = true ->
        Storefront.evaluateRule Examples.from_fifty cart' = true).
Proof.
  apply (total_rule_threshold Examples.from_fifty
           (Examples.cart [Examples.bought])).
  intros c [<-|[]]. exists 50%Q. reflexivity.
Defined.

(** X16: for [product_quantity_in_range] the product may be given as
    [gid://shopify/Product/<number>] or as the bare number: either way the
    quantity tested against the bounds is the sum over the lines that are
    not auto-added and whose [product_id] is that number. *)
Theorem product_id_forms :
  forall (p : N) (min : Z) (max : option Z) (cart : Storefront.Cart)
         (productId : string),
    productId = (Storefront.PRODUCT_GID ++ JS.String_of p)%string
    \/ productId = JS.String_of p ->
    let total :=
      fold_right Z.add 0
        (map Storefront.quantity
           (filter (fun item =>
                      negb (Storefront.isAutoAdded item)
                      && (Storefront.product_id item =? p)%N)
              (Storefront.items cart))) in
    Storefront.conditionPasses
      (product_quantity_in_range productId min max) cart = true
    <-> min <= total
        /\ match max with Some max => total <= max | None => True end.
Proof.
  intros p mn mx cart productId Hid total.
  assert (E : JS.replace_with_empty Storefront.PRODUCT_GID productId
              = JS.String_of p).
  { destruct Hid as [->| ->]; [apply replace_prefixed|].
    apply replace_in_String_of. }
  unfold Storefront.conditionPasses. rewrite E.
  unfold Storefront.productQuantity. rewrite productQuantity_from.
  rewrite Z.add_0_l.
  assert (F : filter
                (fun item =>
                   negb (Storefront.isAutoAdded item)
                   && (JS.String_of (Storefront.product_id item)
                       =? JS.String_of p)%string) (Storefront.items cart)
              = filter
                  (fun item =>
                     negb (Storefront.isAutoAdded item)
                     && (Storefront.product_id item =? p)%N)
                  (Storefront.items cart)).
  { apply filter_ext. intros item. now rewrite String_of_eqb. }
  rewrite F. fold total.
  destruct (Z.ltb_spec total mn) as [lt|ge].
  - split; [discriminate|]. intros [H _]. lia.
  - destruct mx as [m|].
    + destruct (Z.gtb_spec total m) as [gt|le].
      * split; [discriminate|]. intros [_ H]. lia.
      * split; [intros _; split; lia|reflexivity].
    + split; [intros _; split; [lia|exact I]|reflexivity].
Qed.

Lemma product_id_forms_witness :
  Storefront.conditionPasses
    (product_quantity_in_range "70" 1 (Some 1))
    (Examples.cart [Examples.bought; Examples.added]) = true.
Proof.
  apply (product_id_forms 70 1 (Some 1)
           (Examples.cart [Examples.bought; Examples.added]) "70"
           (or_intror eq_refl)).
  simpl. lia.
Defined.




(** X19: the storefront script is served the rules of the document that
    are present and switched on, in their order; so every addition of a
    cycle run on them is the target of a rule of the document that is
    switched on and matches the cart. *)
Theorem proxy_serves_active_rules :
  forall (document : list (option AutoAddRule)),
    (forall r, In r (Proxy.activeRules document)
               <-> In (Some r) document /\ active r = true)
    /\ (forall before after,
          document = before ++ after ->
          Proxy.activeRules document
          = Proxy.activeRules before ++ Proxy.activeRules after)
    /\ (forall cart g q,
          In (Storefront.Add g q)
            (Storefront.evaluate_cycle (Proxy.activeRules document) cart) ->
          exists r,
            In (Some r) document /\ active r = true
            /\ Storefront.evaluateRule r cart = true
            /\ addVariantId (action r) = g).
Proof.
  intros document.
  assert (H : forall r, In r (Proxy.activeRules document)
                        <-> In (Some r) document /\ active r = true).
  { intros r. unfold Proxy.activeRules. rewrite in_flat_map. split.
    - intros [[r'|] [Hin Hr]]; [|destruct Hr].
      destruct (active r') eqn:A; [|destruct Hr].
      destruct Hr as [<-|[]]. now split.
    - intros [Hin A]. exists (Some r). split; [exact Hin|].
      rewrite A. now left. }
  split; [exact H|]. split.
  - intros before after ->. apply flat_map_app.
  - intros cart g q Hadd. apply add_origin in Hadd.
    destruct Hadd as [r [Hin [Hm Ht]]]. apply H in Hin.
    exists r. tauto.
Qed.

Lemma proxy_serves_active_rules_witness :
  exists r,
    In (Some r) Samples.rules_document /\ active r = true
    /\ Storefront.evaluateRule r (Examples.cart [Examples.bought]) = true
    /\ addVariantId (action r) = Examples.variantA.
Proof.
  apply (proj2 (proj2 (proxy_serves_active_rules Samples.rules_document))
           (Examples.cart [Examples.bought]) Examples.variantA 1).
  simpl. tauto.
Defined.

(** ** The validation of rules in the admin block and on the rules page *)

Section AdminFacts.
Import Admin.


Lemma validateFrom_nil (rulesArr : list (option AutoAddRule)) (i : nat) :
  validateFrom i rulesArr = []
  <-> forall r, In r rulesArr -> validateRule r = [].
Proof.
  revert i. induction rulesArr as [|r rest IH]; intros i; simpl.
  - split; [intros _ r []|reflexivity].
  - destruct (validateRule r) as [|e errs] eqn:E.
    + rewrite IH. split.
      * intros H r0 [<-|H0]; [exact E|now apply H].
      * intros H r0 H0. apply H. now right.
    + split; [discriminate|]. intros H.
      specialize (H r (or_introl eq_refl)). congruence.
Qed.

Lemma validateRule_named (r : AutoAddRule) :
  validateRule (Some r) = [] ->
  JS.truthy (JS.trim (Rule.id r)) = true
  /\ JS.truthy (JS.trim (addVariantId (action r))) = true.
Proof.
  unfold validateRule, blank. intros H.
  apply app_eq_nil in H. destruct H as [H1 H].
  apply app_eq_nil in H. destruct H as [H2 _].
  destruct (JS.truthy (JS.trim (Rule.id r))); [|discriminate].
  destruct (JS.truthy (JS.trim (addVariantId (action r))));
    [|discriminate].
  now split.
Qed.

End AdminFacts.


(** X21: what the admin block accepts the rules page accepts: when
    [validateAll] has no issue for an array of rules, [isValid] of the
    rules page holds for it; and for rules whose conditions raise no
    error the two agree. *)
Theorem page_accepts_what_block_accepts :
  forall (rules : list AutoAddRule),
    (Admin.validateAll (map Some rules) = [] ->
     RulesPage.isValid rules = true)
    /\ ((forall r, In r rules ->
           Admin.conditionsErrors 0 (conditions r) = []) ->
        RulesPage.isValid rules = true ->
        Admin.validateAll (map Some rules) = []).
Proof.
  intros rules. unfold Admin.validateAll, RulesPage.isValid. split.
  - intros H. rewrite validateFrom_nil in H.
    apply forallb_forall. intros r Hr.
    destruct (validateRule_named r) as [H1 H2].
    + apply H. now apply in_map.
    + now rewrite H1, H2.
  - intros Hc H. apply validateFrom_nil. intros r0 Hr0.
    apply in_map_iff in Hr0. destruct Hr0 as [r [<- Hr]].
    rewrite forallb_forall in H. specialize (H r Hr).
    apply andb_true_iff in H. destruct H as [H1 H2].
    unfold Admin.validateRule, Admin.blank. rewrite H1, H2. simpl.
    now apply Hc.
Qed.

Lemma page_accepts_what_block_accepts_witness :
  RulesPage.isValid [Examples.from_fifty; Examples.on_product] = true.
Proof.
  apply (proj1 (page_accepts_what_block_accepts
                  [Examples.from_fifty; Examples.on_product])).
  reflexivity.
Defined.

(** ** Rebuilding the collection index, and the transform reading it *)

Section IndexFacts.
Import CollectionIndex.

Lemma NoDup_set_add (x : string) (s : JS.StringSet) :
  NoDup s -> NoDup (JS.set_add x s).
Proof.
  intros H. unfold JS.set_add. destruct (JS.set_has x s) eqn:E; [exact H|].
  apply NoDup_app; [exact H | constructor; [intros [] | constructor] |].
  intros a Ha [<-|[]]. apply set_has_In in Ha. congruence.
Qed.

Lemma fold_set_add_In (l : list string) :
  forall (s : JS.StringSet) (y : string),
    In y (fold_left (fun set x => JS.set_add x set) l s)
    <-> In y s \/ In y l.
Proof.
  induction l as [|x l IH]; intros s y; simpl; [tauto|].
  rewrite IH, set_add_In. intuition congruence.
Qed.

Lemma fold_set_add_NoDup (l : list string) :
  forall s : JS.StringSet,
    NoDup s -> NoDup (fold_left (fun set x => JS.set_add x set) l s).
Proof.
  induction l as [|x l IH]; intros s H; simpl; [exact H|].
  now apply IH, NoDup_set_add.
Qed.

Lemma conditions_ids_In (conds : list RuleCondition) :
  forall (s : JS.StringSet) (y : string),
    In y (fold_left
            (fun set c =>
               match c with
               | includes_any_collections collectionIds =>
                   fold_left (fun set cid => JS.set_add cid set)
                     collectionIds set
               | _ => set
               end) conds s)
    <-> In y s
        \/ exists ids,
             In (includes_any_collections ids) conds /\ In y ids.
Proof.
  induction conds as [|c conds IH]; intros s y; cbn [fold_left].
  - split; [tauto|]. intros [H|[ids [[] _]]]. exact H.
  - rewrite IH. split.
    + intros [H|[ids [Hc Hy]]].
      * destruct c; try (now left).
        apply fold_set_add_In in H. destruct H as [H|H]; [now left|].
        right. eexists. split; [left; reflexivity | exact H].
      * right. exists ids. split; [now right | exact Hy].
    + intros [H|[ids [[->|Hc] Hy]]].
      * left. destruct c; try exact H. apply fold_set_add_In. now left.
      * left. apply fold_set_add_In. now right.
      * right. now exists ids.
Qed.

Lemma conditions_ids_NoDup (conds : list RuleCondition) :
  forall s : JS.StringSet,
    NoDup s ->
    NoDup (fold_left
             (fun set c =>
                match c with
                | includes_any_collections collectionIds =>
                    fold_left (fun set cid => JS.set_add cid set)
                      collectionIds set
                | _ => set
                end) conds s).
Proof.
  induction conds as [|c conds IH]; intros s H; cbn [fold_left];
    [exact H|].
  apply IH. destruct c; try exact H. now apply fold_set_add_NoDup.
Qed.

Lemma rules_ids_In (rules : list AutoAddRule) :
  forall (s : JS.StringSet) (y : string),
    In y (fold_left
            (fun set r =>
               fold_left
                 (fun set c =>
                    match c with
                    | includes_any_collections collectionIds =>
                        fold_left (fun set cid => JS.set_add cid set)
                          collectionIds set
                    | _ => set
                    end) (conditions r) set) rules s)
    <-> In y s
        \/ exists r ids,
             In r rules
             /\ In (includes_any_collections ids) (conditions r)
             /\ In y ids.
Proof.
  induction rules as [|r rules IH]; intros s y; cbn [fold_left].
  - split; [tauto|]. intros [H|[r [ids [[] _]]]]. exact H.
  - rewrite IH, conditions_ids_In. split.
    + intros [[H|[ids H]]|[r0 [ids [Hr H]]]].
      * now left.
      * right. exists r, ids. split; [now left | exact H].
      * right. exists r0, ids. split; [now right | exact H].
    + intros [H|[r0 [ids [[<-|Hr] H]]]].
      * left. now left.
      * left. right. now exists ids.
      * right. now exists r0, ids.
Qed.

Lemma rules_ids_NoDup (rules : list AutoAddRule) :
  forall s : JS.StringSet,
    NoDup s ->
    NoDup (fold_left
             (fun set r =>
                fold_left
                  (fun set c =>
                     match c with
                     | includes_any_collections collectionIds =>
                         fold_left (fun set cid => JS.set_add cid set)
                           collectionIds set
                     | _ => set
                     end) (conditions r) set) rules s).
Proof.
  induction rules as [|r rules IH]; intros s H; cbn [fold_left];
    [exact H|].
  now apply IH, conditions_ids_NoDup.
Qed.

(** One node of a page of the products of collection [cid]. *)
Lemma node_indexed (cid nid pid c : string) (mapping : JS.Map JS.StringSet) :
  indexed
    (JS.set nid
       (JS.set_add cid
          match JS.get nid mapping with
          | Some set => set
          | None => []
          end) mapping) pid c
  <-> indexed mapping pid c \/ (pid = nid /\ c = cid).
Proof.
  unfold indexed, JS.StringSet in *.
  destruct (String.eqb_spec nid pid) as [->|ne].
  - rewrite get_set_same. split.
    + intros [l [[= <-] Hc]]. apply set_add_In in Hc.
      destruct Hc as [->|Hc]; [now right|]. left.
      destruct (JS.get pid mapping) as [set|] eqn:G;
        [exists set; split; [reflexivity | exact Hc] | destruct Hc].
    + intros [[l [Hl Hc]]|[_ ->]].
      * eexists. split; [reflexivity|]. rewrite Hl. apply set_add_In.
        now right.
      * eexists. split; [reflexivity|]. apply set_add_In. now left.
  - rewrite (get_set_other _ _ _ _ ne). split; [tauto|].
    intros [H|[E _]]; [exact H | congruence].
Qed.

Lemma nodes_indexed (cid pid c : string) (nodes : list string) :
  forall mapping : JS.Map JS.StringSet,
    indexed
      (fold_left
         (fun mapping nid =>
            let set :=
              match JS.get nid mapping with
              | Some set => set
              | None => []
              end in
            JS.set nid (JS.set_add cid set) mapping) nodes mapping) pid c
    <-> indexed mapping pid c \/ (In pid nodes /\ c = cid).
Proof.
  induction nodes as [|nid nodes IH]; intros mapping; cbn [fold_left].
  - simpl. tauto.
  - rewrite IH. cbv zeta. rewrite node_indexed. simpl.
    intuition congruence.
Qed.

Lemma buildMapping_from (productsOf : string -> list string)
  (pid c : string) (collectionIds : list string) :
  forall mapping : JS.Map JS.StringSet,
    indexed
      (fold_left
         (fun mapping cid =>
            fold_left
              (fun mapping nid =>
                 let set :=
                   match JS.get nid mapping with
                   | Some set => set
                   | None => []
                   end in
                 JS.set nid (JS.set_add cid set) mapping)
              (productsOf cid) mapping) collectionIds mapping) pid c
    <-> indexed mapping pid c
        \/ (In c collectionIds /\ In pid (productsOf c)).
Proof.
  induction collectionIds as [|cid cids IH]; intros mapping;
    cbn [fold_left].
  - simpl. tauto.
  - rewrite IH, nodes_indexed. simpl. split.
    + intros [[H|[Hp ->]]|[Hc Hp]]; auto.
    + intros [H|[[->|Hc] Hp]]; auto.
Qed.

Lemma nothing_indexed (pid c : string) : ~ indexed [] pid c.
Proof. intros [l [H _]]. discriminate. Qed.

Lemma buildMapping_indexed (productsOf : string -> list string)
  (collectionIds : list string) (pid c : string) :
  indexed (buildMapping productsOf collectionIds) pid c
  <-> In c collectionIds /\ In pid (productsOf c).
Proof.
  unfold buildMapping. rewrite buildMapping_from.
  pose proof (nothing_indexed pid c). tauto.
Qed.

Lemma nodes_NoDup (cid : string) (nodes : list string) :
  forall mapping : JS.Map JS.StringSet,
    NoDup (JS.keys mapping) ->
    NoDup
      (JS.keys
         (fold_left
            (fun mapping nid =>
               let set :=
                 match JS.get nid mapping with
                 | Some set => set
                 | None => []
                 end in
               JS.set nid (JS.set_add cid set) mapping) nodes mapping)).
Proof.
  induction nodes as [|nid nodes IH]; intros mapping H; cbn [fold_left];
    [exact H|].
  now apply IH, NoDup_keys_set.
Qed.

Lemma buildMapping_NoDup (productsOf : string -> list string)
  (collectionIds : list string) :
  NoDup (JS.keys (buildMapping productsOf collectionIds)).
Proof.
  unfold buildMapping.
  assert (H : forall mapping : JS.Map JS.StringSet,
             NoDup (JS.keys mapping) ->
             NoDup
               (JS.keys
                  (fold_left
                     (fun mapping cid =>
                        fold_left
                          (fun mapping nid =>
                             let set :=
                               match JS.get nid mapping with
                               | Some set => set
                               | None => []
                               end in
                             JS.set nid (JS.set_add cid set) mapping)
                          (productsOf cid) mapping)
                     collectionIds mapping))).
  { induction collectionIds as [|cid cids IH]; intros mapping H;
      cbn [fold_left]; [exact H|].
    now apply IH, nodes_NoDup. }
  apply H. constructor.
Qed.

Lemma nodes_keys (cid pid : string) (nodes : list string) :
  forall mapping : JS.Map JS.StringSet,
    In pid
      (JS.keys
         (fold_left
            (fun mapping nid =>
               let set :=
                 match JS.get nid mapping with
                 | Some set => set
                 | None => []
                 end in
               JS.set nid (JS.set_add cid set) mapping) nodes mapping))
    <-> In pid (JS.keys mapping) \/ In pid nodes.
Proof.
  induction nodes as [|nid nodes IH]; intros mapping; cbn [fold_left].
  - simpl. tauto.
  - rewrite IH. cbv zeta. rewrite keys_set. simpl. intuition congruence.
Qed.

Lemma buildMapping_keys (productsOf : string -> list string)
  (collectionIds : list string) (pid : string) :
  In pid (JS.keys (buildMapping productsOf collectionIds))
  <-> exists c, In c collectionIds /\ In pid (productsOf c).
Proof.
  unfold buildMapping.
  assert (H : forall mapping : JS.Map JS.StringSet,
             In pid
               (JS.keys
                  (fold_left
                     (fun mapping cid =>
                        fold_left
                          (fun mapping nid =>
                             let set :=
                               match JS.get nid mapping with
                               | Some set => set
                               | None => []
                               end in
                             JS.set nid (JS.set_add cid set) mapping)
                          (productsOf cid) mapping)
                     collectionIds mapping))
             <-> In pid (JS.keys mapping)
                 \/ exists c, In c collectionIds /\ In pid (productsOf c)).
  { induction collectionIds as [|cid cids IH]; intros mapping;
      cbn [fold_left].
    - split; [tauto|]. intros [H|[c [[] _]]]. exact H.
    - rewrite IH, nodes_keys. split.
      + intros [[H|H]|[c [Hc Hp]]].
        * now left.
        * right. exists cid. split; [now left | exact H].
        * right. exists c. split; [now right | exact Hp].
      + intros [H|[c [[<-|Hc] Hp]]].
        * left. now left.
        * left. now right.
        * right. now exists c. }
  rewrite H. simpl. tauto.
Qed.

(** One entry of [mapping] merged into the index. *)
Lemma entry_indexed (pid0 pid c : string) (set : JS.StringSet)
  (existing : JS.Map (list string)) :
  indexed
    (JS.set pid0
       (fold_left (fun prev c => JS.set_add c prev) set
          (setOf match JS.get pid0 existing with
                 | Some l => l
                 | None => []
                 end)) existing) pid c
  <-> indexed existing pid c \/ (pid = pid0 /\ In c set).
Proof.
  unfold indexed, setOf, JS.StringSet in *.
  destruct (String.eqb_spec pid0 pid) as [->|ne].
  - rewrite get_set_same. split.
    + intros [l [[= <-] Hc]]. apply fold_set_add_In in Hc.
      destruct Hc as [Hc|Hc]; [|now right]. left.
      apply fold_set_add_In in Hc. destruct Hc as [[]|Hc].
      destruct (JS.get pid existing) as [l|] eqn:G;
        [exists l; split; [reflexivity | exact Hc] | destruct Hc].
    + intros [[l [Hl Hc]]|[_ Hc]].
      * eexists. split; [reflexivity|]. rewrite Hl.
        apply fold_set_add_In. left. apply fold_set_add_In. now right.
      * eexists. split; [reflexivity|]. apply fold_set_add_In. now right.
  - rewrite (get_set_other _ _ _ _ ne). split; [tauto|].
    intros [H|[E _]]; [exact H | congruence].
Qed.

Lemma mergeIndex_from (pid c : string) (mapping : JS.Map JS.StringSet) :
  forall existing : JS.Map (list string),
    indexed (mergeIndex existing mapping) pid c
    <-> indexed existing pid c
        \/ exists set, In (pid, set) mapping /\ In c set.
Proof.
  unfold mergeIndex.
  induction mapping as [|[pid0 set] mapping IH]; intros existing;
    cbn [fold_left].
  - split; [tauto|]. intros [H|[set [[] _]]]. exact H.
  - rewrite IH, entry_indexed. split.
    + intros [[H|[-> Hc]]|[set0 [Hin Hc]]].
      * now left.
      * right. exists set. split; [now left | exact Hc].
      * right. exists set0. split; [now right | exact Hc].
    + intros [H|[set0 [[[= <- <-]|Hin] Hc]]].
      * left. now left.
      * left. right. now split.
      * right. now exists set0.
Qed.

Lemma mergeIndex_indexed (pid c : string) (mapping : JS.Map JS.StringSet)
  (existing : JS.Map (list string)) :
  NoDup (JS.keys mapping) ->
  indexed (mergeIndex existing mapping) pid c
  <-> indexed existing pid c \/ indexed mapping pid c.
Proof.
  intros Hd. rewrite mergeIndex_from. unfold indexed at 3. split.
  - intros [H|[set [Hin Hc]]]; [now left|]. right. exists set.
    split; [now apply get_NoDup | exact Hc].
  - intros [H|[set [Hg Hc]]]; [now left|]. right. exists set.
    split; [now apply get_In | exact Hc].
Qed.

Lemma mergeIndex_keys (pid : string) (mapping : JS.Map JS.StringSet) :
  forall existing : JS.Map (list string),
    In pid (JS.keys (mergeIndex existing mapping))
    <-> In pid (JS.keys existing) \/ In pid (JS.keys mapping).
Proof.
  unfold mergeIndex.
  induction mapping as [|[pid0 set] mapping IH]; intros existing;
    cbn [fold_left].
  - simpl. tauto.
  - rewrite IH, keys_set. simpl. intuition congruence.
Qed.

Lemma mergeIndex_NoDup (mapping : JS.Map JS.StringSet) :
  forall existing : JS.Map (list string),
    NoDup (JS.keys existing) ->
    NoDup (JS.keys (mergeIndex existing mapping)).
Proof.
  unfold mergeIndex.
  induction mapping as [|[pid0 set] mapping IH]; intros existing H;
    cbn [fold_left]; [exact H|].
  now apply IH, NoDup_keys_set.
Qed.

Lemma set_length {V : Type} (k : string) (v : V) (m : JS.Map V) :
  (List.length (JS.keys m) <= List.length (JS.keys (JS.set k v m)))%nat.
Proof.
  induction m as [|[k0 v0] m IH]; simpl; [lia|].
  destruct (k0 =? k)%string; simpl; lia.
Qed.

Lemma mergeIndex_length (mapping : JS.Map JS.StringSet) :
  forall existing : JS.Map (list string),
    (List.length (JS.keys existing)
     <= List.length (JS.keys (mergeIndex existing mapping)))%nat.
Proof.
  unfold mergeIndex.
  induction mapping as [|[pid0 set] mapping IH]; intros existing;
    cbn [fold_left]; [lia|].
  eapply Nat.le_trans; [|apply IH]. apply set_length.
Qed.

Lemma rebuild_Some requested rules productsOf existing index :
  rebuild requested rules productsOf existing = Some index ->
  index
  = mergeIndex existing
      (buildMapping productsOf
         match requested with
         | Some ids => ids
         | None => collectionIdsOfRules rules
         end).
Proof.
  unfold rebuild.
  destruct (match requested with
            | Some ids => ids
            | None => collectionIdsOfRules rules
            end); [discriminate|].
  now intros [= <-].
Qed.

End IndexFacts.

(** X22: the collection ids the route reads off the rules when the request
    names none are those listed in an [includes_any_collections] condition
    of some rule, each once. *)
Theorem collectionIdsOfRules_members :
  forall (rules : list AutoAddRule),
    (forall cid,
       In cid (CollectionIndex.collectionIdsOfRules rules)
       <-> exists r ids,
             In r rules
             /\ In (includes_any_collections ids) (conditions r)
             /\ In cid ids)
    /\ NoDup (CollectionIndex.collectionIdsOfRules rules).
Proof.
  intros rules. unfold CollectionIndex.collectionIdsOfRules. split.
  - intros cid. rewrite rules_ids_In. simpl. tauto.
  - apply rules_ids_NoDup. constructor.
Qed.

(** X23: the route answers "No collections to index" exactly when the
    request carries an empty array, whatever the rules are, or carries no
    array and no [includes_any_collections] condition of the rules lists
    an id. *)
Theorem rebuild_needs_collections :
  forall (requested : option (list string)) (rules : list AutoAddRule)
         (productsOf : string -> list string)
         (existing : JS.Map (list string)),
    CollectionIndex.rebuild requested rules productsOf existing = None
    <-> requested = Some []
        \/ (requested = None
            /\ forall r ids,
                 In r rules ->
                 In (includes_any_collections ids) (conditions r) ->
                 ids = []).
Proof.
  intros requested rules productsOf existing. unfold CollectionIndex.rebuild.
  destruct requested as [[|cid ids]|].
  - split; [now left | reflexivity].
  - split; [discriminate|]. intros [H|[H _]]; discriminate.
  - pose proof (rules_ids_In rules [] ) as M.
    fold (CollectionIndex.collectionIdsOfRules rules) in M.
    destruct (CollectionIndex.collectionIdsOfRules rules) as [|cid l] eqn:E.
    + split; [|reflexivity]. intros _. right. split; [reflexivity|].
      intros r ids Hr Hc. destruct ids as [|y ids]; [reflexivity|].
      exfalso. apply (proj2 (M y)). right. exists r, (y :: ids).
      repeat split; try assumption. now left.
    + split; [discriminate|]. intros [H|[_ H]]; [discriminate|].
      destruct (proj1 (M cid) (or_introl eq_refl)) as [[]|[r [ids [Hr [Hc Hy]]]]].
      rewrite (H r ids Hr Hc) in Hy. destruct Hy.
Qed.

(** X24: the index the route stores lists a product under a collection
    exactly when the index there was did, or the collection is one of
    those indexed and the product is among its products; no product of
    the index there was is dropped, and an index whose keys are distinct
    stays one. *)
Theorem rebuild_index_contents :
  forall (requested : option (list string)) (rules : list AutoAddRule)
         (productsOf : string -> list string)
         (existing index : JS.Map (list string)),
    CollectionIndex.rebuild requested rules productsOf existing
    = Some index ->
    let collectionIds :=
      match requested with
      | Some ids => ids
      | None => CollectionIndex.collectionIdsOfRules rules
      end in
    (forall pid c,
       CollectionIndex.indexed index pid c
       <-> CollectionIndex.indexed existing pid c
           \/ (In c collectionIds /\ In pid (productsOf c)))
    /\ (forall pid,
          In pid (JS.keys index)
          <-> In pid (JS.keys existing)
              \/ exists c, In c collectionIds /\ In pid (productsOf c))
    /\ (CollectionIndex.productsIndexed existing
        <= CollectionIndex.productsIndexed index)%nat
    /\ (NoDup (JS.keys existing) -> NoDup (JS.keys index)).
Proof.
  intros requested rules productsOf existing index H collectionIds.
  apply rebuild_Some in H. fold collectionIds in H. subst index.
  split; [|split; [|split]].
  - intros pid c.
    rewrite mergeIndex_indexed by apply buildMapping_NoDup.
    now rewrite buildMapping_indexed.
  - intros pid. now rewrite mergeIndex_keys, buildMapping_keys.
  - apply mergeIndex_length.
  - apply mergeIndex_NoDup.
Qed.

Lemma rebuild_index_contents_witness :
  CollectionIndex.indexed
    (CollectionIndex.mergeIndex Samples.parsed_index
       (CollectionIndex.buildMapping Samples.productsOf [Samples.summer]))
    "gid://shopify/Product/72" Samples.summer.
Proof.
  apply (proj1 (rebuild_index_contents (Some [Samples.summer]) []
                  Samples.productsOf Samples.parsed_index
                  (CollectionIndex.mergeIndex Samples.parsed_index
                     (CollectionIndex.buildMapping Samples.productsOf
                        [Samples.summer]))
                  eq_refl)).
  right. simpl. tauto.
Defined.

(** X25: once the route has rebuilt the index for a collection, the cart
    transform reading that index finds an [includes_any_collections]
    condition naming the collection satisfied by any cart with a variant
    line of one of the products of the collection. *)
Theorem rebuilt_index_serves_transform :
  forall (requested : option (list string)) (rules : list AutoAddRule)
         (productsOf : string -> list string)
         (existing index : JS.Map (list string))
         (input : Transform.CartTransformRunInput)
         (line : Transform.CartLine) (pid cid : string)
         (wanted : list string),
    NoDup (JS.keys existing) ->
    CollectionIndex.rebuild requested rules productsOf existing
    = Some index ->
    Transform.collectionIndex input = Some index ->
    In cid match requested with
           | Some ids => ids
           | None => CollectionIndex.collectionIdsOfRules rules
           end ->
    In pid (productsOf cid) ->
    In line (Transform.lines input) ->
    Transform.productIdOf line = Some pid ->
    pid <> ""%string ->
    In cid wanted ->
    Transform.conditionHolds (includes_any_collections wanted) input = true.
Proof.
  intros requested rules productsOf existing index input line pid cid wanted
    Hd Hr Hi Hc Hp Hl Hpid Hne Hw.
  pose proof (rebuild_Some _ _ _ _ _ Hr) as E.
  assert (Hx : CollectionIndex.indexed index pid cid).
  { rewrite E.
    rewrite mergeIndex_indexed by apply buildMapping_NoDup.
    right. now apply buildMapping_indexed. }
  assert (Hk : NoDup (map fst index)).
  { rewrite E. now apply mergeIndex_NoDup. }
  destruct Hx as [l [Hg Hin]].
  assert (G : JS.get pid (Transform.parseCollectionIndex input) = Some l).
  { apply (parseCollectionIndex_get input index pid l Hi Hk).
    split; [now apply get_In|]. intros ->. destruct Hin. }
  unfold Transform.conditionHolds.
  replace (existsb _ (Transform.lines input)) with true; [reflexivity|].
  symmetry. apply existsb_exists. exists line. split; [exact Hl|].
  rewrite Hpid. rewrite (proj2 (truthy_nonempty pid) Hne). simpl.
  rewrite G. apply existsb_exists. exists cid. split; [exact Hin|].
  now apply mem_In.
Qed.

Lemma rebuilt_index_serves_transform_witness :
  Transform.conditionHolds (includes_any_collections [Samples.summer])
    {| Transform.lines := [Samples.mug];
       Transform.rules := None;
       Transform.collectionIndex :=
         Some (CollectionIndex.mergeIndex Samples.parsed_index
                 (CollectionIndex.buildMapping Samples.productsOf
                    [Samples.summer])) |}
  = true.
Proof.
  apply (rebuilt_index_serves_transform None [Samples.on_summer]
           Samples.productsOf Samples.parsed_index
           (CollectionIndex.mergeIndex Samples.parsed_index
              (CollectionIndex.buildMapping Samples.productsOf
                 [Samples.summer]))
           {| Transform.lines := [Samples.mug];
              Transform.rules := None;
              Transform.collectionIndex :=
                Some (CollectionIndex.mergeIndex Samples.parsed_index
                        (CollectionIndex.buildMapping Samples.productsOf
                           [Samples.summer])) |}
           Samples.mug
           "gid://shopify/Product/72" Samples.summer [Samples.summer]).
  - repeat constructor; simpl; intuition discriminate.
  - reflexivity.
  - reflexivity.
  - simpl; tauto.
  - simpl; tauto.
  - simpl; tauto.
  - reflexivity.
  - discriminate.
  - simpl; tauto.
Defined.
